(** * TF_2_DOC: the Markdown assembly core of [main.go]

    A shallow embedding of the table-of-contents builder
    ([slugify], [BuildMarkdownToc]), of the table renderer
    ([MarkdownTableCellEscape], [MarkdownTable]) and of the extraction
    functions ([getSortedKeys], [GetVarsTable] and its siblings), followed by
    the properties of the specification that were checked against them.

    Go strings and byte slices are byte sequences: both are [string] here
    (a list of 8-bit [ascii]).  Go's [int] is a 64-bit integer: it is a [Z],
    and the one place where the program increments a counter writes the
    wrap-around out ([wrap64]). *)

From Stdlib Require Import ZArith Ascii String DecimalString Sorting.Sorted.
From Stdlib Require DecimalZ DecimalPos.
From stdpp Require Import base option list strings gmap sorting.

Local Open Scope string_scope.
Local Open Scope Z_scope.

(** ** Bytes and strings *)

Definition LF : ascii := "010"%char.
Definition CR : ascii := "013"%char.
Definition quoteByte : ascii := "034"%char.

Definition isLF (c : ascii) : bool := Ascii.eqb c LF.
Definition isCR (c : ascii) : bool := Ascii.eqb c CR.

(** [len(s)] as a Go [int]. *)
Definition len (s : string) : Z := Z.of_nat (String.length s).

Fixpoint mapBytes (f : ascii → ascii) (s : string) : string :=
  match s with
  | EmptyString => EmptyString
  | String c r => String (f c) (mapBytes f r)
  end.

Fixpoint allBytes (p : ascii → bool) (s : string) : bool :=
  match s with
  | EmptyString => true
  | String c r => p c && allBytes p r
  end.

Fixpoint anyByte (p : ascii → bool) (s : string) : bool :=
  match s with
  | EmptyString => false
  | String c r => p c || anyByte p r
  end.

(** The last byte of a string, when there is one. *)
Fixpoint lastByte (s : string) : option ascii :=
  match s with
  | EmptyString => None
  | String c EmptyString => Some c
  | String _ r => lastByte r
  end.

(** [strings.HasPrefix(s, p)]. *)
Fixpoint HasPrefix (s p : string) : bool :=
  match p, s with
  | EmptyString, _ => true
  | String _ _, EmptyString => false
  | String a p', String b s' => Ascii.eqb a b && HasPrefix s' p'
  end.

(** [strings.Replace(s, old, new, -1)]: every non-overlapping occurrence of
    [old], found from left to right, becomes [new].  [skip] counts the bytes
    of a match that are still to be passed over.  The program only ever
    gives a non-empty [old]. *)
Fixpoint replaceFrom (old new : string) (skip : nat) (s : string) : string :=
  match s with
  | EmptyString => EmptyString
  | String c r =>
      match skip with
      | S k => replaceFrom old new k r
      | O =>
          if HasPrefix s old
          then new +:+ replaceFrom old new (String.length old - 1) r
          else String c (replaceFrom old new 0 r)
      end
  end.

Definition Replace (s old new : string) : string := replaceFrom old new 0 s.

(** [strings.Repeat(s, count)]; the program's counts are never negative. *)
Fixpoint repeatString (s : string) (n : nat) : string :=
  match n with
  | O => EmptyString
  | S k => s +:+ repeatString s k
  end.

Definition Repeat (s : string) (count : Z) : string :=
  repeatString s (Z.to_nat count).

(** The verb [%d] of [fmt.Sprintf] on an [int]. *)
Definition formatInt (z : Z) : string := NilZero.string_of_int (Z.to_int z).

(** 64-bit two's complement wrap-around of Go's [int]. *)
Definition wrap64 (z : Z) : Z := (z + 2 ^ 63) mod 2 ^ 64 - 2 ^ 63.

(** ** The slug generator *)

Definition lowerByte (c : ascii) : ascii :=
  let n := nat_of_ascii c in
  if ((65 <=? n) && (n <=? 90))%nat then ascii_of_nat (n + 32) else c.

Definition isASCII (s : string) : bool :=
  allBytes (λ c, (nat_of_ascii c <? 128)%nat) s.

Definition droppedChars : list string :=
  [ String quoteByte EmptyString; "'"; "`"; ".";
    "!"; ","; "~"; "&";
    "%"; "^"; "*"; "#";
    "@"; "|";
    "("; ")";
    "{"; "}";
    "["; "]" ].

Section Slug.

(** [strings.ToLower] lower-cases an ASCII-only string byte by byte; on a
    string with a byte above 127 it decodes UTF-8 and maps every rune
    through the Unicode case tables of the Go library, which are not part
    of this repository: that branch is the parameter [unicodeToLower]. *)
Variable unicodeToLower : string → string.

Definition ToLower (s : string) : string :=
  if isASCII s then mapBytes lowerByte s else unicodeToLower s.

Definition slugify (s : string) : string :=
  let s := ToLower s in
  let s := fold_left (λ s c, Replace s c EmptyString) droppedChars s in
  Replace s " " "-".

End Slug.


(** ** The heading patterns

    The three regular expressions are anchored at both ends and have no flag:
    [.] is any byte but a newline, [$] is the end of the text.  Each is
    embedded as the matcher of its own pattern; [rHashHeader] returns the two
    submatches [m[1]] ([indent]) and [m[2]] ([title]), and tries the
    alternatives in the order of Go's leftmost-first matching: the longest
    run of [#] first, the optional space taken first. *)

Definition isHash (c : ascii) : bool := Ascii.eqb c "#"%char.
Definition isSpace (c : ascii) : bool := Ascii.eqb c " "%char.

(** [(?P<title>.+)$] *)
Definition matchTitle (s : string) : option string :=
  match s with
  | EmptyString => None
  | String _ _ => if anyByte isLF s then None else Some s
  end.

(** [ ?(?P<title>.+)$] *)
Definition matchSpaceTitle (s : string) : option string :=
  match s with
  | String c r =>
      if isSpace c
      then match matchTitle r with
           | Some t => Some t
           | None => matchTitle s
           end
      else matchTitle s
  | EmptyString => None
  end.

(** [^(?P<indent>#+) ?(?P<title>.+)$] *)
Fixpoint rHashHeader (s : string) : option (string * string) :=
  match s with
  | String c r =>
      if isHash c
      then match rHashHeader r with
           | Some (indent, title) => Some (String c indent, title)
           | None =>
               match matchSpaceTitle r with
               | Some title => Some (String c EmptyString, title)
               | None => None
               end
           end
      else None
  | EmptyString => None
  end.

(** [^=+$] *)
Definition rUnderscoreHeader1 (s : string) : bool :=
  match s with
  | EmptyString => false
  | String _ _ => allBytes (λ c, Ascii.eqb c "="%char) s
  end.

(** [^\-+$] *)
Definition rUnderscoreHeader2 (s : string) : bool :=
  match s with
  | EmptyString => false
  | String _ _ => allBytes (λ c, Ascii.eqb c "-"%char) s
  end.

(** ** The line scanner

    [bufio.NewScanner(bytes.NewReader(d))] with the default split function
    [bufio.ScanLines] and the default buffer: the tokens are the lines of
    [d], each without its end-of-line marker (a newline, with one carriage
    return before it dropped); a last line without a newline is a token when
    it is not empty.  A line of [MaxScanTokenSize] bytes or more does not fit
    the buffer: the scan stops there and [s.Err()] is [bufio.ErrTooLong], the
    only error a scan of an in-memory reader can end with. *)

Inductive error : Set :=
  | ErrTooLong.

Definition MaxScanTokenSize : Z := 64 * 1024.

(** The lines of [d] up to, and without, their newline. *)
Fixpoint rawLines (d : string) : list string :=
  match d with
  | EmptyString => []
  | String c r =>
      if isLF c then EmptyString :: rawLines r
      else match rawLines r with
           | [] => [String c EmptyString]
           | l :: ls => String c l :: ls
           end
  end.

Fixpoint dropCR (data : string) : string :=
  match data with
  | EmptyString => EmptyString
  | String c EmptyString => if isCR c then EmptyString else data
  | String c r => String c (dropCR r)
  end.

(** The tokens [s.Scan()] delivers, and [s.Err()] once it has returned
    false. *)
Fixpoint scanTokens (raw : list string) : list string * option error :=
  match raw with
  | [] => ([], None)
  | l :: ls =>
      if MaxScanTokenSize <=? len l then ([], Some ErrTooLong)
      else let '(ts, e) := scanTokens ls in (dropCR l :: ts, e)
  end.

Definition Scanner (d : string) : list string * option error :=
  scanTokens (rawLines d).

(** ** The table-of-contents builder *)

(** The variables the closure [appendToC] and the loop share. *)
Record tocState : Type := mkTocState {
  toc : list string;
  seenHeaders : gmap string Z;
  previousLine : string;
  skipHeaders : Z
}.

Definition setPreviousLine (line : string) (st : tocState) : tocState :=
  mkTocState (toc st) (seenHeaders st) line (skipHeaders st).

Definition tocBanner : list string :=
  [ "Table of Contents";
    "=================" ].

Definition initState (skip : Z) : tocState :=
  mkTocState tocBanner ∅ EmptyString skip.

(** [fmt.Sprintf("%s1. [%s](#%s)", strings.Repeat("   ", indent), title, link)] *)
Definition tocLine (indent : Z) (title link : string) : string :=
  Repeat "   " indent +:+ "1. [" +:+ title +:+ "](#" +:+ link +:+ ")".

Section Toc.

Variable unicodeToLower : string → string.

(** The closure [appendToC].  [skipHeaders--] is only reached on a
    positive counter; [seenHeaders[link]++] wraps. *)
Definition appendToC (title : string) (indent : Z) (st : tocState) : tocState :=
  let link := slugify unicodeToLower title in
  if 0 <? skipHeaders st
  then mkTocState (toc st) (seenHeaders st) (previousLine st) (skipHeaders st - 1)
  else
    match seenHeaders st !! link with
    | Some n =>
        let n' := wrap64 (n + 1) in
        let link' := link +:+ "-" +:+ formatInt (wrap64 (n' - 1)) in
        mkTocState (toc st ++ [tocLine indent title link'])
                   (<[link := n']> (seenHeaders st))
                   (previousLine st) (skipHeaders st)
    | None =>
        mkTocState (toc st ++ [tocLine indent title link])
                   (<[link := 1]> (seenHeaders st))
                   (previousLine st) (skipHeaders st)
    end.

(** One turn of the loop [for s.Scan() { ... }] on the line [s.Text()].
    The two [continue] statements leave the loop body before
    [previousLine = s.Text()]. *)
Definition scanStep (depth : Z) (st : tocState) (line : string) : tocState :=
  match rHashHeader line with
  | Some (m1, m2) =>
      if (0 <? depth) && (depth <? len m1) then st
      else setPreviousLine line (appendToC m2 (len m1 - 1) st)
  | None =>
      if rUnderscoreHeader1 line
      then setPreviousLine line (appendToC (previousLine st) 0 st)
      else if rUnderscoreHeader2 line
      then if (0 <? depth) && (depth <? 2) then st
           else setPreviousLine line (appendToC (previousLine st) 1 st)
      else setPreviousLine line st
  end.

Definition scanLoop (depth : Z) (lines : list string) (st : tocState) : tocState :=
  fold_left (scanStep depth) lines st.

Definition BuildMarkdownToc (d : string) (depth skipHeaders : Z)
  : list string * option error :=
  let '(lines, err) := Scanner d in
  let st := scanLoop depth lines (initState skipHeaders) in
  match err with
  | Some e => ([], Some e)
  | None => (toc st, None)
  end.

End Toc.

(** ** The table renderer *)

(** [regexp.MustCompile(`\r?\n`).ReplaceAllString(cellText, "<br>")]: the
    matches are found from left to right; a carriage return is part of a
    match only when a newline follows it at once. *)
Fixpoint MarkdownTableCellEscape (cellText : string) : string :=
  match cellText with
  | EmptyString => EmptyString
  | String c r =>
      if isLF c then "<br>" +:+ MarkdownTableCellEscape r
      else
        match r with
        | String c' r' =>
            if isCR c && isLF c'
            then "<br>" +:+ MarkdownTableCellEscape r'
            else String c (MarkdownTableCellEscape r)
        | EmptyString => String c EmptyString
        end
  end.

Definition newline : string := String LF EmptyString.

(** [fmt.Sprintf(" %s |", h)] *)
Definition cell (h : string) : string := " " +:+ h +:+ " |".

Definition MarkdownTable (headings lengths : list string)
    (data : list (list string)) : string :=
  let table := "|" in
  let table := fold_left (λ table h, table +:+ cell h) headings table in
  let table := table +:+ newline +:+ "|" in
  let table := fold_left (λ table l, table +:+ cell l) lengths table in
  fold_left
    (λ table d,
       fold_left (λ table val, table +:+ cell (MarkdownTableCellEscape val))
                 d (table +:+ newline +:+ "|"))
    data table.

(** ** The extraction functions *)

Record TfTableObject : Type := mkTfTableObject {
  Name : string;
  Type_ : string;
  Description : string;
  Location : string
}.

(** A map read at a key it does not hold gives the zero value. *)
#[global] Instance TfTableObject_inhabited : Inhabited TfTableObject :=
  populate (mkTfTableObject EmptyString EmptyString EmptyString EmptyString).

(** [sort.Strings]: ascending in the byte-wise order of Go's [<] on
    strings. *)
Definition sortStrings (keys : list string) : list string :=
  merge_sort String.le keys.

(** The range loop over [objs] visits the keys in an order Go leaves open;
    [sort.Strings] then puts them in the one ascending order (see
    [getSortedKeys_any_order]). *)
Definition getSortedKeys (objs : gmap string TfTableObject) : list string :=
  sortStrings (map_to_list objs).*1.

(** [strings.Split(s, "/")] *)
Fixpoint Split (s : string) (sep : ascii) : list string :=
  match s with
  | EmptyString => [EmptyString]
  | String c r =>
      if Ascii.eqb c sep then EmptyString :: Split r sep
      else match Split r sep with
           | [] => [String c EmptyString]
           | x :: xs => String c x :: xs
           end
  end.

(** The part of [terraform-config-inspect/tfconfig] the program reads.  The
    fields of a module are Go maps; each is given here as the list of its
    values in the order the range loop visits them. *)
Module tfconfig.

Record SourcePos : Type := mkSourcePos {
  Filename : string;
  Line : Z
}.

Module Var.
Record t : Type := mk {
  Name : string; Type_ : string; Description : string; Pos : SourcePos
}.
End Var.

Module Output.
Record t : Type := mk {
  Name : string; Description : string; Pos : SourcePos
}.
End Output.

Module Resource.
Record t : Type := mk {
  Type_ : string; Name : string; Pos : SourcePos
}.
End Resource.

Module ModuleCall.
Record t : Type := mk {
  Name : string; Source : string; Version : string; Pos : SourcePos
}.
End ModuleCall.

Record Module_ : Type := mkModule { Variables : list Var.t;
                                    Outputs : list Output.t;
                                    ManagedResources : list Resource.t;
                                    DataResources : list Resource.t;
                                    ModuleCalls : list ModuleCall.t }.

End tfconfig.

(** The [Location] cell:
    [tfpathbits := strings.Split(item.Pos.Filename, "/")],
    [tffile := tfpathbits[len(tfpathbits)-1]] and
    [fmt.Sprintf("[%s: %d](%s/%s/%s#L%d)", tffile, line, baseUrl, modulePath,
    tffile, line)]. *)
Definition codePosition (pos : tfconfig.SourcePos) (baseUrl modulePath : string)
  : string :=
  let tfpathbits := Split (tfconfig.Filename pos) "/"%char in
  let tffile := List.last tfpathbits EmptyString in
  "[" +:+ tffile +:+ ": " +:+ formatInt (tfconfig.Line pos) +:+ "]("
      +:+ baseUrl +:+ "/" +:+ modulePath +:+ "/" +:+ tffile
      +:+ "#L" +:+ formatInt (tfconfig.Line pos) +:+ ")".

(** [objs[item.Name] = TfTableObject{...}] *)
Definition insertItem {A : Type} (name : A → string) (obj : A → TfTableObject)
    (objs : gmap string TfTableObject) (item : A) : gmap string TfTableObject :=
  <[name item := obj item]> objs.

(** The loop [for _, item := range ... { objs[item.Name] = ... }] that opens
    each of the five functions, on the items in the order it visits them. *)
Definition collect {A : Type} (name : A → string) (obj : A → TfTableObject)
    (items : list A) : gmap string TfTableObject :=
  fold_left (insertItem name obj) items ∅.

(** The loop [for _, k := range getSortedKeys(objs) { data = append(data, ...) }]. *)
Definition sortedRows (row : TfTableObject → list string)
    (objs : gmap string TfTableObject) : list (list string) :=
  (λ k, row (objs !!! k)) <$> getSortedKeys objs.

Definition varsObject (baseUrl modulePath : string) (item : tfconfig.Var.t)
  : TfTableObject :=
  mkTfTableObject (tfconfig.Var.Name item) (tfconfig.Var.Type_ item)
    (tfconfig.Var.Description item)
    (codePosition (tfconfig.Var.Pos item) baseUrl modulePath).

Definition GetVarsData (module : tfconfig.Module_) (baseUrl modulePath : string)
  : list (list string) :=
  let objs := collect tfconfig.Var.Name (varsObject baseUrl modulePath)
                (tfconfig.Variables module) in
  sortedRows (λ o, [Name o; Type_ o; Description o; Location o]) objs.

Definition GetVarsTable (module : tfconfig.Module_) (baseUrl modulePath : string)
  : string :=
  let headings := ["Variable"; "Type"; "Description"; "Code Position"] in
  let lengths := ["----"; "------"; "--------"; "------"] in
  MarkdownTable headings lengths (GetVarsData module baseUrl modulePath).

Definition outputsObject (baseUrl modulePath : string) (item : tfconfig.Output.t)
  : TfTableObject :=
  mkTfTableObject (tfconfig.Output.Name item) EmptyString
    (tfconfig.Output.Description item)
    (codePosition (tfconfig.Output.Pos item) baseUrl modulePath).

Definition GetOutputsData (module : tfconfig.Module_) (baseUrl modulePath : string)
  : list (list string) :=
  let objs := collect tfconfig.Output.Name (outputsObject baseUrl modulePath)
                (tfconfig.Outputs module) in
  sortedRows (λ o, [Name o; Description o; Location o]) objs.

Definition GetOutputsTable (module : tfconfig.Module_) (baseUrl modulePath : string)
  : string :=
  let headings := ["Output name"; "Description"; "Code Position"] in
  let lengths := ["----"; "--------"; "------"] in
  MarkdownTable headings lengths (GetOutputsData module baseUrl modulePath).

Definition resourceObject (baseUrl modulePath : string) (item : tfconfig.Resource.t)
  : TfTableObject :=
  mkTfTableObject (tfconfig.Resource.Name item) (tfconfig.Resource.Type_ item)
    EmptyString
    (codePosition (tfconfig.Resource.Pos item) baseUrl modulePath).

Definition GetManagedResourcesData (module : tfconfig.Module_)
    (baseUrl modulePath : string) : list (list string) :=
  let objs := collect tfconfig.Resource.Name (resourceObject baseUrl modulePath)
                (tfconfig.ManagedResources module) in
  sortedRows (λ o, [Name o; Type_ o; Location o]) objs.

Definition GetManagedResourcesTable (module : tfconfig.Module_)
    (baseUrl modulePath : string) : string :=
  let headings := ["Resource Name"; "Resource Type"; "Code Position"] in
  let lengths := ["----"; "--------"; "------"] in
  MarkdownTable headings lengths (GetManagedResourcesData module baseUrl modulePath).

Definition GetDataSourcesData (module : tfconfig.Module_)
    (baseUrl modulePath : string) : list (list string) :=
  let objs := collect tfconfig.Resource.Name (resourceObject baseUrl modulePath)
                (tfconfig.DataResources module) in
  sortedRows (λ o, [Name o; Type_ o; Location o]) objs.

Definition GetDataSourcesTable (module : tfconfig.Module_)
    (baseUrl modulePath : string) : string :=
  let headings := ["Resource Name"; "Resource Type"; "Code Position"] in
  let lengths := ["----"; "--------"; "------"] in
  MarkdownTable headings lengths (GetDataSourcesData module baseUrl modulePath).

Definition moduleCallObject (baseUrl modulePath : string)
    (item : tfconfig.ModuleCall.t) : TfTableObject :=
  mkTfTableObject (tfconfig.ModuleCall.Name item) (tfconfig.ModuleCall.Source item)
    (tfconfig.ModuleCall.Version item)
    (codePosition (tfconfig.ModuleCall.Pos item) baseUrl modulePath).

Definition GetModulesData (module : tfconfig.Module_)
    (baseUrl modulePath : string) : list (list string) :=
  let objs := collect tfconfig.ModuleCall.Name (moduleCallObject baseUrl modulePath)
                (tfconfig.ModuleCalls module) in
  sortedRows (λ o, [Name o; Type_ o; Location o]) objs.

Definition GetModulesTable (module : tfconfig.Module_)
    (baseUrl modulePath : string) : string :=
  let headings := ["Module Name"; "Module Source"; "Module Location"] in
  let lengths := ["----"; "--------"; "------"] in
  MarkdownTable headings lengths (GetModulesData module baseUrl modulePath).

(** ** The command line and the dispatch of [main] *)

Definition ValidActions : list string :=
  [ "VarsTable";
    "OutputsTable";
    "ManagedResourcesTable";
    "DataSourcesTable";
    "RenderTemplate" ].

Record CliOpts : Type := mkCliOpts {
  TfPath : string;
  Action : string;
  TemplatePath : string;
  RepoUrl : string;
  ModulePath : string
}.

Record TemplateData : Type := mkTemplateData {
  TerraformVarsTable : string;
  TerraformOutputsTable : string;
  TerraformManagedResourcesTable : string;
  TerraformDataSourcesTable : string;
  TerraformModulesTable : string;
  MarkdownTOC : string;
  RepoBaseUrl : string
}.

Fixpoint StringInSlice (a : string) (list : list string) : bool :=
  match list with
  | [] => false
  | b :: rest => if String.eqb b a then true else StringInSlice a rest
  end.

(** [strings.Join(elems, sep)] *)
Definition Join (elems : list string) (sep : string) : string :=
  String.concat sep elems.

(** The verb [%s] of [fmt.Sprintf] on a slice of strings. *)
Definition formatStrings (elems : list string) : string :=
  "[" +:+ Join elems " " +:+ "]".

(** How a function that can stop the program ends: it returns, it panics
    with a message, or it leaves through [os.Exit(1)] after [CheckErr] has
    written its lines to the standard error. *)
Inductive ending (A : Type) : Type :=
  | Returns (a : A)
  | Panics (msg : string)
  | Exits (lines : list string).

Arguments Returns {A} a.
Arguments Panics {A} msg.
Arguments Exits {A} lines.

(** A line of the logger [log.New(os.Stderr, "", 1)], without the newline
    that ends it: the prefix is empty and the flag 1 is [log.Ldate], so that
    [stderr.Println(msg)] writes the date of the day it is called, in the
    form [2006/01/02], a space and the message. *)
Definition logLine (today msg : string) : string := today +:+ " " +:+ msg.

(** [CheckErr(e, msg)], [e] being [None] for [nil] and [Some] of [e.Error()]
    otherwise: [None] when it returns, and when it leaves through
    [os.Exit(1)] the lines it has written to the standard error; [date n] is
    the date the logger reads for the line it writes after [n] others. *)
Definition CheckErr (date : nat → string) (e : option string) (msg : string) :
    option (list string) :=
  match e with
  | Some e =>
      if String.eqb msg EmptyString then Some [logLine (date 0%nat) e]
      else Some [logLine (date 0%nat) msg; logLine (date 1%nat) e]
  | None => None
  end.

(** [ParseCli], after [flag.Parse()] has put the values of the five flags in
    [opts]; the text [flag.Usage()] writes before the first two panics is
    left out. *)
Definition ParseCli (date : nat → string) (opts : CliOpts) : ending CliOpts :=
  if String.eqb (TfPath opts) EmptyString then Panics "no TF Path set"
  else if String.eqb (Action opts) EmptyString then Panics "No Action set"
  else if negb (StringInSlice (Action opts) ValidActions)
  then Panics ("Action " +:+ Action opts +:+ " is not one of: "
               +:+ formatStrings ValidActions)
  else if String.eqb (Action opts) "RenderTemplate"
          && String.eqb (TemplatePath opts) EmptyString
  then
    match CheckErr date (Some "no Template path specified") EmptyString with
    | Some lines => Exits lines
    | None => Returns opts
    end
  else Returns opts.

(** The value [main] gives to the template: the five tables and the table of
    contents of the template itself, built with the depth 3 and nothing
    skipped.  The error of [BuildMarkdownToc] is assigned and never read. *)
Definition templateData (unicodeToLower : string → string) (cliOpts : CliOpts)
    (module : tfconfig.Module_) (readmeTemplateBytes : string) : TemplateData :=
  let '(toc, err) := BuildMarkdownToc unicodeToLower readmeTemplateBytes 3 0 in
  mkTemplateData
    (GetVarsTable module (RepoUrl cliOpts) (ModulePath cliOpts))
    (GetOutputsTable module (RepoUrl cliOpts) (ModulePath cliOpts))
    (GetManagedResourcesTable module (RepoUrl cliOpts) (ModulePath cliOpts))
    (GetDataSourcesTable module (RepoUrl cliOpts) (ModulePath cliOpts))
    (GetModulesTable module (RepoUrl cliOpts) (ModulePath cliOpts))
    (Join toc newline)
    (RepoUrl cliOpts).

(** What the calls of [main] outside this program give back:
    [diags.Error()] when [diags.HasErrors()] holds of the diagnostics of
    [tfconfig.LoadModule(cliOpts.TfPath)], the error of
    [template.New(name).Funcs(...).ParseFiles(cliOpts.TemplatePath)], the
    bytes and the error of [ioutil.ReadFile(cliOpts.TemplatePath)], and for
    [t.Execute(os.Stdout, data)] what it writes to the standard output and
    its error. *)
Record outside : Type := mkOutside {
  diags : option string;
  parseFiles : option string;
  readFile : string * option string;
  execute : TemplateData → string * option string
}.

(** How [main] ends once [ParseCli] has returned [cliOpts] and
    [tfconfig.LoadModule] has given [module]: it has written [output] to the
    standard output and returns, or it panics, or it leaves through
    [CheckErr] with [lines] on the standard error after it has written
    [output]. *)
Inductive action : Type :=
  | Prints (output : string)
  | Panicked (msg : string)
  | Leaves (output : string) (lines : list string).

Definition mainAction (unicodeToLower : string → string) (date : nat → string)
    (cliOpts : CliOpts) (module : tfconfig.Module_) (world : outside) : action :=
  match diags world with
  | Some e => Panicked ("Problem Loading Module: " +:+ e)
  | None =>
      if String.eqb (Action cliOpts) "VarsTable"
      then Prints (GetVarsTable module (RepoUrl cliOpts) (ModulePath cliOpts)
                   +:+ newline)
      else if String.eqb (Action cliOpts) "OutputsTable"
      then Prints (GetOutputsTable module (RepoUrl cliOpts) (ModulePath cliOpts)
                   +:+ newline)
      else if String.eqb (Action cliOpts) "ManagedResourcesTable"
      then Prints (GetManagedResourcesTable module (RepoUrl cliOpts)
                     (ModulePath cliOpts) +:+ newline)
      else if String.eqb (Action cliOpts) "RenderTemplate"
      then
        match CheckErr date (parseFiles world)
                ("Problem loading template: " +:+ TemplatePath cliOpts) with
        | Some lines => Leaves EmptyString lines
        | None =>
            let '(readmeTemplateBytes, err) := readFile world in
            match CheckErr date err "Failed to read template: %s" with
            | Some lines => Leaves EmptyString lines
            | None =>
                let data :=
                  templateData unicodeToLower cliOpts module readmeTemplateBytes in
                let '(output, err) := execute world data in
                match CheckErr date err
                        ("failed rendering template: " +:+ TemplatePath cliOpts) with
                | Some lines => Leaves output lines
                | None => Prints output
                end
            end
        end
      else
        match CheckErr date
                (Some ("Action " +:+ Action cliOpts +:+ " not implented yet"))
                EmptyString with
        | Some lines => Leaves EmptyString lines
        | None => Prints EmptyString
        end
  end.

(** ** Vocabulary of the statements *)

(** The two-byte end-of-line marker. *)
Definition crlf : string := String CR (String LF EmptyString).

(** One row of a table as [MarkdownTable] writes it: the opening pipe, then
    every cell through [cell]. *)
Definition tableRow (cells : list string) : string :=
  fold_left (λ table h, table +:+ cell h) cells "|".

(** The text lines of a rendered table: [strings.Split(table, "\n")]. *)
Definition textLines (table : string) : list string := Split table LF.

Definition noNewline (s : string) : Prop := anyByte isLF s = false.

(** What the switch of the scanning loop makes of a line: a heading line the
    depth filter leaves out ([continue]), a [#] heading with its title and
    indent, an underline with its indent (the title is then the tracked
    previous line), or any other line. *)
Inductive lineClass : Type :=
  | Dropped
  | Atx (title : string) (indent : Z)
  | Setext (indent : Z)
  | Plain.

Definition classify (depth : Z) (line : string) : lineClass :=
  match rHashHeader line with
  | Some (m1, m2) =>
      if (0 <? depth) && (depth <? len m1) then Dropped else Atx m2 (len m1 - 1)
  | None =>
      if rUnderscoreHeader1 line then Setext 0
      else if rUnderscoreHeader2 line
      then if (0 <? depth) && (depth <? 2) then Dropped else Setext 1
      else Plain
  end.

(** The calls of [appendToC] a scan of [lines] makes, in order, as pairs of
    title and indent; [prev] is the tracked previous line at the start. *)
Fixpoint headingCalls (depth : Z) (prev : string) (lines : list string)
  : list (string * Z) :=
  match lines with
  | [] => []
  | line :: rest =>
      match classify depth line with
      | Dropped => headingCalls depth prev rest
      | Atx title indent => (title, indent) :: headingCalls depth line rest
      | Setext indent => (prev, indent) :: headingCalls depth line rest
      | Plain => headingCalls depth line rest
      end
  end.

(** The tracked previous line after a scan of [lines]. *)
Fixpoint trackedLine (depth : Z) (prev : string) (lines : list string) : string :=
  match lines with
  | [] => prev
  | line :: rest =>
      match classify depth line with
      | Dropped => trackedLine depth prev rest
      | _ => trackedLine depth line rest
      end
  end.

(** The anchor [appendToC] writes for the slug [link] when the registry is
    [seen]. *)
Definition linkFor (seen : gmap string Z) (link : string) : string :=
  match seen !! link with
  | Some n => link +:+ "-" +:+ formatInt (wrap64 (wrap64 (n + 1) - 1))
  | None => link
  end.

(** The count [appendToC] leaves in the registry for the slug [link]. *)
Definition countFor (seen : gmap string Z) (link : string) : Z :=
  match seen !! link with
  | Some n => wrap64 (n + 1)
  | None => 1
  end.

Definition setSkipHeaders (skip : Z) (st : tocState) : tocState :=
  mkTocState (toc st) (seenHeaders st) (previousLine st) skip.

(** The number of [#] bytes a line starts with. *)
Fixpoint leadingHashes (line : string) : nat :=
  match line with
  | String c r => if isHash c then S (leadingHashes r) else O
  | EmptyString => O
  end.

Section TocVocabulary.

Variable unicodeToLower : string → string.

(** A sequence of calls of [appendToC]. *)
Definition appendAll (calls : list (string * Z)) (st : tocState) : tocState :=
  fold_left (λ st call, appendToC unicodeToLower call.1 call.2 st) calls st.

End TocVocabulary.

(** The worked examples are ASCII texts: [strings.ToLower] does not reach its
    Unicode branch on them, so that they run the same with any value of the
    parameter [unicodeToLower]; they are run with this one. *)
Definition noUnicode : string → string := λ s, s.

(** The first cell of every row of a table: the key of the row. *)
Definition rowKeys (data : list (list string)) : list string :=
  (λ row, List.hd EmptyString row) <$> data.

(** The rows [data], made from [items], are keyed by the names of the items
    and come in the ascending order of the keys, with no key twice; the rows
    [data'] made from the same items visited in another order, [items'],
    have the same keys in the same order, and are the same rows when no two
    items have the same name. *)
Definition keyedAndSorted {A : Type} (name : A → string) (items items' : list A)
    (data data' : list (list string)) : Prop :=
  StronglySorted String.le (rowKeys data)
  ∧ NoDup (rowKeys data)
  ∧ (∀ k, k ∈ rowKeys data ↔ k ∈ name <$> items)
  ∧ (items ≡ₚ items' → rowKeys data' = rowKeys data)
  ∧ (NoDup (name <$> items) → items ≡ₚ items' → data' = data).

(** The items of the example of the specification, whatever their order. *)
Definition exampleVar (name : string) : tfconfig.Var.t :=
  tfconfig.Var.mk name "string" "a value"
    (tfconfig.mkSourcePos "modules/net/variables.tf" 12).

Definition exampleModule (names : list string) : tfconfig.Module_ :=
  tfconfig.mkModule (exampleVar <$> names) [] [] [] [].

(** A document made of the given lines, each with its newline. *)
Definition unlines (lines : list string) : string :=
  fold_right (λ line rest, line +:+ newline +:+ rest) EmptyString lines.

(** A line the scanner gives back as it is: no newline in it, no carriage
    return at its end, and short enough for the buffer. *)
Definition scannable (line : string) : Prop :=
  noNewline line ∧ lastByte line ≠ Some CR ∧ len line < MaxScanTokenSize.



(** ** Vocabulary of the further statements *)

(** A byte [slugify] drops. *)
Definition isDropped (c : ascii) : bool :=
  existsb (String.eqb (String c EmptyString)) droppedChars.

(** A byte a slug of an ASCII title is made of: an ASCII byte that is not
    dropped, not a space and not an upper-case letter. *)
Definition slugByte (c : ascii) : bool :=
  (nat_of_ascii c <? 128)%nat && negb (isDropped c) && negb (isSpace c)
  && Ascii.eqb (lowerByte c) c.

(** How many of the calls have a title with the slug [b]. *)
Definition occurrences (toLower : string → string) (b : string)
    (calls : list (string * Z)) : nat :=
  length (filter (λ call, slugify toLower call.1 = b) calls).

(** The anchor of a heading with the slug [b] that comes after [n] headings
    with the same slug. *)
Definition anchor (b : string) (n : nat) : string :=
  match n with
  | O => b
  | S _ => b +:+ "-" +:+ formatInt (Z.of_nat n)
  end.

(** The entries of a sequence of calls, each with the anchor its slug and
    the calls [before] it give. *)
Fixpoint numbered (toLower : string → string) (before calls : list (string * Z))
  : list string :=
  match calls with
  | [] => []
  | call :: rest =>
      tocLine call.2 call.1
        (anchor (slugify toLower call.1)
           (occurrences toLower (slugify toLower call.1) before))
      :: numbered toLower (before ++ [call]) rest
  end.

(** A document made of the given lines, each with a carriage return and a
    newline. *)
Definition unlinesCRLF (lines : list string) : string :=
  fold_right (λ line rest, line +:+ crlf +:+ rest) EmptyString lines.

(** The rows [data] are one row for each of the [items], the row [rowOf]
    makes of it. *)
Definition oneRowEach {A : Type} (rowOf : A → list string) (items : list A)
    (data : list (list string)) : Prop :=
  length data = length items ∧ ∀ item, item ∈ items → rowOf item ∈ data.

(** * Properties *)

(** ** Strings *)

#[local] Arguments Ascii.eqb : simpl never.

Lemma append_nil_l (s : string) : EmptyString +:+ s = s.
Proof. reflexivity. Qed.

Lemma append_cons (c : ascii) (s t : string) :
  String c s +:+ t = String c (s +:+ t).
Proof. reflexivity. Qed.

Lemma append_nil_r (s : string) : s +:+ EmptyString = s.
Proof. induction s as [|c s IH]; [done|]. by rewrite append_cons, IH. Qed.

Lemma append_assoc (s t u : string) : (s +:+ t) +:+ u = s +:+ (t +:+ u).
Proof. induction s as [|c s IH]; [done|]. by rewrite !append_cons, IH. Qed.

Lemma length_append (s t : string) :
  String.length (s +:+ t) = (String.length s + String.length t)%nat.
Proof. induction s as [|c s IH]; [done|]. rewrite append_cons. simpl. by rewrite IH. Qed.

Lemma anyByte_append (p : ascii → bool) (s t : string) :
  anyByte p (s +:+ t) = anyByte p s || anyByte p t.
Proof.
  induction s as [|c s IH]; [done|].
  rewrite append_cons. simpl. rewrite IH. by rewrite orb_assoc.
Qed.

Lemma lastByte_append_cons (s : string) (c : ascii) (t : string) :
  lastByte (s +:+ String c t) = lastByte (String c t).
Proof.
  induction s as [|a s IH]; [done|].
  rewrite append_cons. simpl lastByte at 1. rewrite IH.
  destruct (s +:+ String c t) eqn:E; [|done].
  destruct s; discriminate E.
Qed.

Lemma HasPrefix_nil (s : string) : HasPrefix s EmptyString = true.
Proof. by destruct s. Qed.

Lemma isLF_isCR (c : ascii) : isLF c = true → isCR c = false.
Proof. unfold isLF, isCR. intros ->%Ascii.eqb_eq. reflexivity. Qed.

(** ** Cell escaping *)

(** Replacing a one-byte [old] goes byte by byte. *)
Lemma Replace_byte_cons (o : ascii) (new : string) (c : ascii) (r : string) :
  Replace (String c r) (String o EmptyString) new =
  if Ascii.eqb o c then new +:+ Replace r (String o EmptyString) new
  else String c (Replace r (String o EmptyString) new).
Proof.
  unfold Replace. simpl. rewrite HasPrefix_nil, andb_true_r.
  destruct (Ascii.eqb o c); reflexivity.
Qed.

Lemma Replace_byte_append (o : ascii) (new s t : string) :
  Replace (s +:+ t) (String o EmptyString) new =
  Replace s (String o EmptyString) new +:+ Replace t (String o EmptyString) new.
Proof.
  induction s as [|c s IH]; [done|].
  rewrite append_cons, !Replace_byte_cons, IH.
  destruct (Ascii.eqb o c); [by rewrite append_assoc|done].
Qed.

Lemma Replace_crlf_cons (new : string) (c : ascii) (r : string) :
  Replace (String c r) crlf new =
  match r with
  | String c' r' =>
      if isCR c && isLF c' then new +:+ Replace r' crlf new
      else String c (Replace r crlf new)
  | EmptyString => String c EmptyString
  end.
Proof.
  unfold Replace, crlf. simpl.
  rewrite (Ascii.eqb_sym CR c). fold (isCR c).
  destruct r as [|c' r'].
  - destruct (isCR c); reflexivity.
  - change (HasPrefix (String c' r') (String LF EmptyString))
      with (Ascii.eqb LF c' && HasPrefix r' EmptyString).
    rewrite (Ascii.eqb_sym LF c'), HasPrefix_nil, andb_true_r. fold (isLF c').
    destruct (isCR c), (isLF c'); reflexivity.
Qed.

(** The one-pass escape is the two replacements of the specification, the
    two-byte marker first. *)
Lemma MarkdownTableCellEscape_two_pass (s : string) :
  MarkdownTableCellEscape s =
  Replace (Replace s crlf "<br>") newline "<br>".
Proof.
  assert (∀ n s, (String.length s < n)%nat →
    MarkdownTableCellEscape s = Replace (Replace s crlf "<br>") newline "<br>")
    as H; [|by apply (H (S (String.length s))); lia].
  clear s. intros n. induction n as [|n IH]; intros s Hn; [lia|].
  destruct s as [|c r]; [done|].
  rewrite Replace_crlf_cons. simpl MarkdownTableCellEscape.
  destruct r as [|c' r'].
  - unfold newline. rewrite Replace_byte_cons. rewrite (Ascii.eqb_sym LF c).
    fold (isLF c). destruct (isLF c); reflexivity.
  - simpl in Hn. destruct (isLF c) eqn:Hc.
    + rewrite (isLF_isCR _ Hc). simpl andb. cbv iota.
      unfold newline. rewrite Replace_byte_cons, (Ascii.eqb_sym LF c).
      fold (isLF c). rewrite Hc. f_equal. apply IH. simpl. lia.
    + destruct (isCR c && isLF c') eqn:E.
      * unfold newline. rewrite Replace_byte_append.
        change (Replace "<br>" (String LF EmptyString) "<br>") with "<br>".
        f_equal. apply IH. lia.
      * unfold newline. rewrite Replace_byte_cons, (Ascii.eqb_sym LF c).
        fold (isLF c). rewrite Hc. f_equal. apply IH. simpl. lia.
Qed.

Lemma MarkdownTableCellEscape_no_newline (s : string) :
  anyByte isLF (MarkdownTableCellEscape s) = false.
Proof.
  assert (∀ n s, (String.length s < n)%nat →
    anyByte isLF (MarkdownTableCellEscape s) = false)
    as H; [|by apply (H (S (String.length s))); lia].
  clear s. intros n. induction n as [|n IH]; intros s Hn; [lia|].
  destruct s as [|c r]; [done|]. simpl in Hn. simpl MarkdownTableCellEscape.
  destruct (isLF c) eqn:Hc.
  - rewrite anyByte_append, IH by lia. reflexivity.
  - destruct r as [|c' r']; [by simpl; rewrite Hc|].
    destruct (isCR c && isLF c').
    + rewrite anyByte_append, IH by (simpl in Hn; lia). reflexivity.
    + change (anyByte isLF (String c ?x)) with (isLF c || anyByte isLF x).
      rewrite Hc, IH by lia. reflexivity.
Qed.

Lemma MarkdownTableCellEscape_id (s : string) :
  anyByte isLF s = false → MarkdownTableCellEscape s = s.
Proof.
  induction s as [|c r IH]; [done|]. simpl anyByte. intros [Hc Hr]%orb_false_elim.
  simpl. rewrite Hc. destruct r as [|c' r']; [done|].
  simpl in Hr. apply orb_false_elim in Hr as [Hc' Hr'].
  rewrite Hc', andb_false_r. f_equal. apply IH. simpl. by rewrite Hc', Hr'.
Qed.

(** A byte that is neither a carriage return nor a newline is kept where it
    is, and what is before and after it is escaped on its own. *)
Lemma MarkdownTableCellEscape_keeps (a : string) (c : ascii) (b : string) :
  isLF c = false → isCR c = false →
  MarkdownTableCellEscape (a +:+ String c b) =
  MarkdownTableCellEscape a +:+ String c (MarkdownTableCellEscape b).
Proof.
  intros Hc Hc'.
  assert (Hhead : MarkdownTableCellEscape (String c b) =
                  String c (MarkdownTableCellEscape b)).
  { simpl. rewrite Hc, Hc'. destruct b; reflexivity. }
  assert (∀ n a, (String.length a < n)%nat →
    MarkdownTableCellEscape (a +:+ String c b) =
    MarkdownTableCellEscape a +:+ String c (MarkdownTableCellEscape b))
    as H; [|by apply (H (S (String.length a))); lia].
  clear a. intros n. induction n as [|n IH]; intros a Hn; [lia|].
  destruct a as [|x a]; [by rewrite !append_nil_l|].
  simpl in Hn. rewrite append_cons. simpl MarkdownTableCellEscape.
  destruct (isLF x) eqn:Hx.
  - rewrite IH by lia. by rewrite append_assoc.
  - destruct a as [|y a].
    + rewrite append_nil_l. rewrite Hc, andb_false_r. by rewrite Hhead.
    + rewrite append_cons. destruct (isCR x && isLF y).
      * rewrite IH by (simpl in Hn; lia). by rewrite append_assoc.
      * rewrite <- append_cons. rewrite IH by lia. by rewrite append_cons.
Qed.

(** ** The table renderer *)

Lemma fold_cells_prefix (f : string → string) (cells : list string) (p q : string) :
  fold_left (λ table h, table +:+ cell (f h)) cells (p +:+ q) =
  p +:+ fold_left (λ table h, table +:+ cell (f h)) cells q.
Proof.
  revert q. induction cells as [|h cells IH]; intros q; [done|].
  simpl. by rewrite append_assoc, IH.
Qed.

Lemma tableRow_map (f : string → string) (cells : list string) :
  fold_left (λ table h, table +:+ cell (f h)) cells "|" = tableRow (map f cells).
Proof.
  unfold tableRow. generalize "|". induction cells as [|h cells IH]; intros q; [done|].
  simpl. apply IH.
Qed.

(** The rendered table is its rows, one after the other, with a newline
    between two of them. *)
Lemma MarkdownTable_rows (headings lengths : list string) (data : list (list string)) :
  MarkdownTable headings lengths data =
  tableRow headings +:+ newline +:+ tableRow lengths +:+
  fold_right (λ d rest, newline +:+ tableRow (map MarkdownTableCellEscape d) +:+ rest)
             EmptyString data.
Proof.
  unfold MarkdownTable.
  change (fold_left (λ table h, table +:+ cell h) headings "|") with (tableRow headings).
  rewrite <- (append_assoc (tableRow headings) newline "|").
  rewrite (fold_cells_prefix (λ x, x) lengths (tableRow headings +:+ newline) "|").
  change (fold_left (λ table h, table +:+ cell h) lengths "|") with (tableRow lengths).
  rewrite <- (append_assoc (tableRow headings) newline (tableRow lengths +:+ _)).
  rewrite <- (append_assoc (tableRow headings +:+ newline) (tableRow lengths)).
  generalize ((tableRow headings +:+ newline) +:+ tableRow lengths). intros p.
  induction data as [|d data IH] in p |- *; simpl.
  - by rewrite append_nil_r.
  - rewrite IH. rewrite <- (append_assoc p newline "|").
    rewrite (fold_cells_prefix MarkdownTableCellEscape d (p +:+ newline) "|").
    rewrite tableRow_map. by rewrite !append_assoc.
Qed.

Lemma tableRow_snoc (cells : list string) (h : string) :
  tableRow (cells ++ [h]) = tableRow cells +:+ cell h.
Proof. unfold tableRow. by rewrite fold_left_app. Qed.

Lemma tableRow_pipes (cells : list string) :
  HasPrefix (tableRow cells) "|" = true ∧ lastByte (tableRow cells) = Some "|"%char.
Proof.
  split.
  - assert (tableRow cells =
            "|" +:+ fold_left (λ table h, table +:+ cell h) cells EmptyString) as ->.
    { apply (fold_cells_prefix (λ x, x) cells "|" EmptyString). }
    rewrite append_cons. simpl. by rewrite HasPrefix_nil.
  - induction cells as [|h cells _] using rev_ind; [done|].
    rewrite tableRow_snoc. unfold cell.
    change " |" with (" " +:+ "|"). rewrite <- !append_assoc.
    apply (lastByte_append_cons _ "|"%char EmptyString).
Qed.

Lemma tableRow_noNewline (cells : list string) :
  Forall noNewline cells → noNewline (tableRow cells).
Proof.
  induction cells as [|h cells IH] using rev_ind; intros H; [done|].
  apply Forall_app in H as [H1 H2]. apply Forall_cons in H2 as [H2 _].
  rewrite tableRow_snoc. unfold noNewline, cell in *.
  rewrite !anyByte_append, IH, H2 by done. reflexivity.
Qed.

Lemma escaped_noNewline (d : list string) :
  Forall noNewline (map MarkdownTableCellEscape d).
Proof.
  induction d as [|x d IH]; simpl; constructor; [|done].
  apply MarkdownTableCellEscape_no_newline.
Qed.

Lemma Split_noNewline (s : string) : noNewline s → Split s LF = [s].
Proof.
  unfold noNewline. induction s as [|c s IH]; [done|]. simpl.
  intros [Hc Hs]%orb_false_elim. fold (isLF c). rewrite Hc, IH by done. reflexivity.
Qed.

Lemma Split_line (a b : string) :
  noNewline a → Split (a +:+ newline +:+ b) LF = a :: Split b LF.
Proof.
  unfold noNewline. induction a as [|c a IH].
  - intros _. reflexivity.
  - intros [Hc Ha]%orb_false_elim. rewrite append_cons.
    change (Split (String c ?x) LF) with
      (if isLF c then EmptyString :: Split x LF
       else match Split x LF with
            | [] => [String c EmptyString]
            | y :: ys => String c y :: ys
            end).
    rewrite Hc, IH by done. reflexivity.
Qed.

(** With no newline in the headings and in the rule tokens, the text lines
    of the table are its rows. *)
Lemma MarkdownTable_textLines (headings lengths : list string) (data : list (list string)) :
  Forall noNewline headings → Forall noNewline lengths →
  textLines (MarkdownTable headings lengths data) =
  tableRow headings :: tableRow lengths ::
    map (λ d, tableRow (map MarkdownTableCellEscape d)) data.
Proof.
  intros Hh Hl. rewrite MarkdownTable_rows. unfold textLines.
  rewrite Split_line by by apply tableRow_noNewline. f_equal.
  generalize (tableRow lengths), (tableRow_noNewline lengths Hl). intros p Hp.
  revert p Hp. induction data as [|d data IH]; intros p Hp; simpl.
  - rewrite append_nil_r. by apply Split_noNewline.
  - rewrite Split_line by done. f_equal. apply IH.
    apply tableRow_noNewline, escaped_noNewline.
Qed.

(** ** The line scanner *)

Lemma rawLines_line (line rest : string) :
  noNewline line → rawLines (line +:+ newline +:+ rest) = line :: rawLines rest.
Proof.
  unfold noNewline. induction line as [|c line IH].
  - intros _. reflexivity.
  - intros [Hc Hl]%orb_false_elim. rewrite append_cons.
    change (rawLines (String c ?x)) with
      (if isLF c then EmptyString :: rawLines x
       else match rawLines x with
            | [] => [String c EmptyString]
            | l :: ls => String c l :: ls
            end).
    by rewrite Hc, IH.
Qed.

Lemma dropCR_id (line : string) : lastByte line ≠ Some CR → dropCR line = line.
Proof.
  induction line as [|c line IH]; [done|].
  destruct line as [|c' line].
  - simpl. intros H. destruct (isCR c) eqn:E; [|done].
    unfold isCR in E. apply Ascii.eqb_eq in E as ->. done.
  - intros H. change (dropCR (String c (String c' line)))
      with (String c (dropCR (String c' line))).
    by rewrite IH.
Qed.

(** The scanner gives back the lines a document was made of. *)
Lemma Scanner_unlines (lines : list string) :
  Forall scannable lines → Scanner (unlines lines) = (lines, None).
Proof.
  unfold Scanner. induction lines as [|line lines IH]; [done|].
  intros [(Hnl & Hcr & Hlen) Hrest]%Forall_cons.
  simpl unlines. rewrite rawLines_line by done. simpl scanTokens.
  rewrite (proj2 (Z.leb_gt _ _) Hlen), IH by done.
  by rewrite dropCR_id.
Qed.

(** C7.  Cell escaping replaces every carriage-return+newline and every
    bare newline with the marker [<br>] and changes nothing else: it is the
    replacement of all [crlf] followed by the replacement of all remaining
    newlines; its result holds no newline; a cell without a newline is
    returned as it is; every byte that is neither a carriage return nor a
    newline, a pipe in particular, stays where it is. *)
Theorem MarkdownTableCellEscape_spec (cellText : string) :
  MarkdownTableCellEscape cellText =
    Replace (Replace cellText crlf "<br>") newline "<br>"
  ∧ noNewline (MarkdownTableCellEscape cellText)
  ∧ (noNewline cellText → MarkdownTableCellEscape cellText = cellText)
  ∧ (∀ (a b : string) (c : ascii),
       cellText = a +:+ String c b → isLF c = false → isCR c = false →
       MarkdownTableCellEscape cellText =
       MarkdownTableCellEscape a +:+ String c (MarkdownTableCellEscape b))
  ∧ (∀ a b : string,
       cellText = a +:+ "|" +:+ b →
       MarkdownTableCellEscape cellText =
       MarkdownTableCellEscape a +:+ "|" +:+ MarkdownTableCellEscape b).
Proof.
  split; [apply MarkdownTableCellEscape_two_pass|].
  split; [apply MarkdownTableCellEscape_no_newline|].
  split; [apply MarkdownTableCellEscape_id|].
  split.
  - intros a b c -> Hc Hc'. by apply MarkdownTableCellEscape_keeps.
  - intros a b ->. by apply (MarkdownTableCellEscape_keeps a "|"%char b).
Qed.

Lemma MarkdownTableCellEscape_spec_witness :
  MarkdownTableCellEscape "a|b" = "a|b"
  ∧ MarkdownTableCellEscape ("x" +:+ crlf +:+ "y|z" +:+ newline) =
    "x<br>y" +:+ "|" +:+ "z<br>".
Proof.
  split.
  - destruct (MarkdownTableCellEscape_spec "a|b") as (_ & _ & H & _).
    apply H. reflexivity.
  - destruct (MarkdownTableCellEscape_spec ("x" +:+ crlf +:+ "y|z" +:+ newline))
      as (_ & _ & _ & _ & H).
    apply (H ("x" +:+ crlf +:+ "y") ("z" +:+ newline)). reflexivity.
Defined.

(** C6, the claim as it is written fails: a heading with a newline in it is
    written as it is, and the table of two headings, two rule tokens and one
    data row then has four text lines, the first of which does not end with
    a pipe. *)
Lemma MarkdownTable_heading_newline :
  textLines (MarkdownTable ["a" +:+ newline +:+ "b"; "Type"] ["----"; "------"]
               [["x"; "string"]]) =
    ["| a"; "b | Type |"; "| ---- | ------ |"; "| x | string |"]
  ∧ length (textLines (MarkdownTable ["a" +:+ newline +:+ "b"; "Type"]
               ["----"; "------"] [["x"; "string"]])) ≠ 3%nat.
Proof. split; [reflexivity|]. vm_compute. discriminate. Qed.

(** C6, amended.  For two headings and two rule tokens without a newline in
    them and one data row, the table is exactly three text lines: the row of
    the headings, the row of the rule tokens as they were given, and the row
    of the data cells, each of them escaped; each line begins and ends with a
    pipe. *)
Theorem MarkdownTable_three_lines (h1 h2 l1 l2 : string) (d : list string) :
  noNewline h1 → noNewline h2 → noNewline l1 → noNewline l2 →
  textLines (MarkdownTable [h1; h2] [l1; l2] [d]) =
    [ "|" +:+ cell h1 +:+ cell h2;
      "|" +:+ cell l1 +:+ cell l2;
      tableRow (map MarkdownTableCellEscape d) ]
  ∧ Forall (λ line, HasPrefix line "|" = true ∧ lastByte line = Some "|"%char)
      (textLines (MarkdownTable [h1; h2] [l1; l2] [d])).
Proof.
  intros Hh1 Hh2 Hl1 Hl2.
  assert (textLines (MarkdownTable [h1; h2] [l1; l2] [d]) =
          [tableRow [h1; h2]; tableRow [l1; l2];
           tableRow (map MarkdownTableCellEscape d)]) as E.
  { apply (MarkdownTable_textLines [h1; h2] [l1; l2] [d]); by repeat constructor. }
  split.
  - rewrite E. unfold tableRow. simpl. by rewrite !append_assoc.
  - rewrite E. repeat constructor; apply tableRow_pipes.
Qed.

Lemma MarkdownTable_three_lines_witness :
  textLines (MarkdownTable ["Variable"; "Type"] ["----"; "------"] [["x"; "string"]]) =
    ["| Variable | Type |"; "| ---- | ------ |"; "| x | string |"].
Proof.
  apply (MarkdownTable_three_lines "Variable" "Type" "----" "------" ["x"; "string"]);
    reflexivity.
Defined.

(** ** The table-of-contents builder *)

(** The slug of an ASCII title does not depend on the Unicode tables. *)
Lemma slugify_ascii (lower1 lower2 : string → string) (s : string) :
  isASCII s = true → slugify lower1 s = slugify lower2 s.
Proof. intros H. unfold slugify, ToLower. by rewrite H. Qed.

Section TocFacts.

Variable unicodeToLower : string → string.

#[local] Abbreviation slugify := (slugify unicodeToLower).
#[local] Abbreviation appendToC := (appendToC unicodeToLower).
#[local] Abbreviation appendAll := (appendAll unicodeToLower).
#[local] Abbreviation scanStep := (scanStep unicodeToLower).
#[local] Abbreviation scanLoop := (scanLoop unicodeToLower).
#[local] Abbreviation BuildMarkdownToc := (BuildMarkdownToc unicodeToLower).

(** *** The closure *)

Lemma appendToC_skip (title : string) (indent : Z) (st : tocState) :
  0 < skipHeaders st →
  appendToC title indent st = setSkipHeaders (skipHeaders st - 1) st.
Proof.
  intros H. unfold appendToC. by rewrite (proj2 (Z.ltb_lt _ _) H).
Qed.

Lemma appendToC_emit (title : string) (indent : Z) (st : tocState) :
  skipHeaders st ≤ 0 →
  appendToC title indent st =
  mkTocState
    (toc st ++ [tocLine indent title (linkFor (seenHeaders st) (slugify title))])
    (<[slugify title := countFor (seenHeaders st) (slugify title)]> (seenHeaders st))
    (previousLine st) (skipHeaders st).
Proof.
  intros H. unfold appendToC, linkFor, countFor.
  rewrite (proj2 (Z.ltb_ge _ _) H).
  by destruct (seenHeaders st !! slugify title).
Qed.

Lemma appendToC_previousLine (title : string) (indent : Z) (st : tocState) :
  previousLine (appendToC title indent st) = previousLine st.
Proof.
  unfold appendToC. destruct (0 <? skipHeaders st); [done|].
  by destruct (seenHeaders st !! slugify title).
Qed.

Lemma appendToC_setPreviousLine (title : string) (indent : Z) (line : string)
    (st : tocState) :
  appendToC title indent (setPreviousLine line st) =
  setPreviousLine line (appendToC title indent st).
Proof.
  unfold appendToC, setPreviousLine. cbn [toc seenHeaders previousLine skipHeaders].
  destruct (0 <? skipHeaders st); [done|].
  by destruct (seenHeaders st !! slugify title).
Qed.

Lemma setPreviousLine_twice (l1 l2 : string) (st : tocState) :
  setPreviousLine l2 (setPreviousLine l1 st) = setPreviousLine l2 st.
Proof. done. Qed.

Lemma setPreviousLine_same (st : tocState) :
  setPreviousLine (previousLine st) st = st.
Proof. by destruct st. Qed.

Lemma appendAll_setPreviousLine (calls : list (string * Z)) (line : string)
    (st : tocState) :
  appendAll calls (setPreviousLine line st) =
  setPreviousLine line (appendAll calls st).
Proof.
  revert st. induction calls as [|[t i] calls IH]; intros st; [done|].
  simpl. by rewrite appendToC_setPreviousLine, IH.
Qed.

Lemma appendAll_app (calls1 calls2 : list (string * Z)) (st : tocState) :
  appendAll (calls1 ++ calls2) st = appendAll calls2 (appendAll calls1 st).
Proof. apply fold_left_app. Qed.

(** *** The loop *)

Lemma scanStep_classify (depth : Z) (st : tocState) (line : string) :
  scanStep depth st line =
  match classify depth line with
  | Dropped => st
  | Atx title indent => setPreviousLine line (appendToC title indent st)
  | Setext indent => setPreviousLine line (appendToC (previousLine st) indent st)
  | Plain => setPreviousLine line st
  end.
Proof.
  unfold scanStep, classify.
  destruct (rHashHeader line) as [[m1 m2]|].
  - by destruct ((0 <? depth) && (depth <? len m1)).
  - destruct (rUnderscoreHeader1 line); [done|].
    destruct (rUnderscoreHeader2 line); [|done].
    by destruct ((0 <? depth) && (depth <? 2)).
Qed.

Lemma scanLoop_app (depth : Z) (lines1 lines2 : list string) (st : tocState) :
  scanLoop depth (lines1 ++ lines2) st =
  scanLoop depth lines2 (scanLoop depth lines1 st).
Proof. apply fold_left_app. Qed.

Lemma scanLoop_snoc (depth : Z) (lines : list string) (line : string)
    (st : tocState) :
  scanLoop depth (lines ++ [line]) st = scanStep depth (scanLoop depth lines st) line.
Proof. apply scanLoop_app. Qed.

(** A scan is the calls of [appendToC] it makes, and the line it tracks. *)
Lemma scanLoop_calls (depth : Z) (lines : list string) (st : tocState) :
  scanLoop depth lines st =
  setPreviousLine (trackedLine depth (previousLine st) lines)
    (appendAll (headingCalls depth (previousLine st) lines) st).
Proof.
  revert st. induction lines as [|line lines IH]; intros st.
  - simpl. by rewrite setPreviousLine_same.
  - change (scanLoop depth (line :: lines) st)
      with (scanLoop depth lines (scanStep depth st line)).
    rewrite IH, scanStep_classify. simpl.
    destruct (classify depth line) as [|title indent|indent|]; [done|..].
    + simpl. by rewrite appendAll_setPreviousLine, setPreviousLine_twice.
    + simpl. by rewrite appendAll_setPreviousLine, setPreviousLine_twice.
    + simpl. by rewrite appendAll_setPreviousLine, setPreviousLine_twice.
Qed.

Lemma scanLoop_previousLine (depth : Z) (lines : list string) (st : tocState) :
  previousLine (scanLoop depth lines st) = trackedLine depth (previousLine st) lines.
Proof. by rewrite scanLoop_calls. Qed.

(** *** The function *)

Lemma BuildMarkdownToc_ok (d : string) (depth skip : Z) (lines : list string) :
  Scanner d = (lines, None) →
  BuildMarkdownToc d depth skip =
  (toc (appendAll (headingCalls depth EmptyString lines) (initState skip)), None).
Proof.
  intros H. unfold BuildMarkdownToc. rewrite H. by rewrite scanLoop_calls.
Qed.

Lemma BuildMarkdownToc_err (d : string) (depth skip : Z) (lines : list string)
    (e : error) :
  Scanner d = (lines, Some e) → BuildMarkdownToc d depth skip = ([], Some e).
Proof. intros H. unfold BuildMarkdownToc. by rewrite H. Qed.

(** *** Skipped headings *)

Lemma setSkipHeaders_appendToC (title : string) (indent : Z) (st : tocState) :
  skipHeaders st ≤ 0 →
  appendToC title indent (setSkipHeaders 0 st) =
  setSkipHeaders 0 (appendToC title indent st).
Proof.
  intros H. rewrite !appendToC_emit by (simpl; lia). reflexivity.
Qed.

(** Calls made while the skip counter is positive leave no trace but on the
    counter: the entries and the registry are those of the calls that come
    after the first [skipHeaders st] ones, made with no skip at all. *)
Lemma appendAll_skip (calls : list (string * Z)) (st : tocState) :
  setSkipHeaders 0 (appendAll calls st) =
  appendAll (drop (Z.to_nat (skipHeaders st)) calls) (setSkipHeaders 0 st).
Proof.
  revert st. induction calls as [|[t i] calls IH]; intros st.
  - by rewrite drop_nil.
  - change (appendAll ((t, i) :: calls) st)
      with (appendAll calls (appendToC t i st)).
    rewrite IH. destruct (Z.lt_ge_cases 0 (skipHeaders st)) as [Hpos|Hle].
    + rewrite appendToC_skip by done. simpl skipHeaders.
      replace (Z.to_nat (skipHeaders st)) with (S (Z.to_nat (skipHeaders st - 1))) by lia.
      reflexivity.
    + rewrite appendToC_emit by done. simpl skipHeaders.
      replace (Z.to_nat (skipHeaders st)) with 0%nat by lia.
      rewrite !drop_0.
      change (appendAll ((t, i) :: calls) (setSkipHeaders 0 st))
        with (appendAll calls (appendToC t i (setSkipHeaders 0 st))).
      rewrite setSkipHeaders_appendToC by done.
      by rewrite appendToC_emit by done.
Qed.

Lemma appendAll_first_unsuffixed (t : string) (i : Z) (calls : list (string * Z)) :
  toc (appendAll ((t, i) :: calls) (initState 0)) !! 2%nat =
  Some (tocLine i t (slugify t)).
Proof.
  change (appendAll ((t, i) :: calls) (initState 0))
    with (appendAll calls (appendToC t i (initState 0))).
  rewrite appendToC_emit by done.
  assert (∀ calls st l, toc st !! 2%nat = Some l →
            toc (appendAll calls st) !! 2%nat = Some l) as H.
  { clear. intros calls. induction calls as [|[t i] calls IH]; intros st l Hl; [done|].
    apply IH. destruct (Z.lt_ge_cases 0 (skipHeaders st)) as [Hpos|Hle].
    - by rewrite appendToC_skip.
    - rewrite appendToC_emit by done. by apply lookup_app_l_Some. }
  apply H. reflexivity.
Qed.

(** *** Collisions *)

(** The rule behind it: a slug the registry has counted [n] times gets the
    suffix [-n], and is counted once more. *)
Lemma appendToC_collision (title : string) (indent : Z) (st : tocState) (n : Z) :
  skipHeaders st ≤ 0 →
  seenHeaders st !! slugify title = Some n →
  1 ≤ n < 2 ^ 63 - 1 →
  appendToC title indent st =
  mkTocState
    (toc st ++ [tocLine indent title (slugify title +:+ "-" +:+ formatInt n)])
    (<[slugify title := n + 1]> (seenHeaders st))
    (previousLine st) (skipHeaders st).
Proof.
  intros Hskip Hseen Hn. rewrite appendToC_emit by done.
  unfold linkFor, countFor. rewrite Hseen.
  assert (wrap64 (n + 1) = n + 1) as ->.
  { unfold wrap64. rewrite Z.mod_small; lia. }
  assert (wrap64 (n + 1 - 1) = n) as ->; [|done].
  unfold wrap64. rewrite Z.mod_small; lia.
Qed.

Lemma appendToC_fresh (title : string) (indent : Z) (st : tocState) :
  skipHeaders st ≤ 0 →
  seenHeaders st !! slugify title = None →
  appendToC title indent st =
  mkTocState
    (toc st ++ [tocLine indent title (slugify title)])
    (<[slugify title := 1]> (seenHeaders st))
    (previousLine st) (skipHeaders st).
Proof.
  intros Hskip Hseen. rewrite appendToC_emit by done.
  unfold linkFor, countFor. by rewrite Hseen.
Qed.

(** With the skip counter used up, every call gives one entry. *)
Lemma appendAll_emits (calls : list (string * Z)) (st : tocState) :
  skipHeaders st ≤ 0 →
  ∃ entries,
    length entries = length calls
    ∧ toc (appendAll calls st) = (toc st ++ entries)%list
    ∧ skipHeaders (appendAll calls st) = skipHeaders st.
Proof.
  revert st. induction calls as [|[t i] calls IH]; intros st Hskip.
  - exists []. by rewrite app_nil_r.
  - change (appendAll ((t, i) :: calls) st)
      with (appendAll calls (appendToC t i st)).
    destruct (IH (appendToC t i st)) as (entries & Hlen & Htoc & Hsk).
    { by rewrite appendToC_emit. }
    rewrite Htoc, Hsk, appendToC_emit by done.
    cbn [toc skipHeaders]. eexists (_ :: entries). split; [|split].
    + simpl. by rewrite Hlen.
    + by rewrite <- app_assoc.
    + done.
Qed.

(** A call leaves the counts of the other slugs as they are. *)
Lemma appendAll_other (calls : list (string * Z)) (st : tocState) (b : string) :
  Forall (λ call, slugify call.1 ≠ b) calls →
  seenHeaders (appendAll calls st) !! b = seenHeaders st !! b.
Proof.
  revert st. induction calls as [|[t i] calls IH]; intros st Hother; [done|].
  apply Forall_cons in Hother as [Ht Hother].
  change (appendAll ((t, i) :: calls) st)
    with (appendAll calls (appendToC t i st)).
  rewrite IH by done.
  destruct (Z.lt_ge_cases 0 (skipHeaders st)) as [Hpos|Hle].
  - by rewrite appendToC_skip.
  - rewrite appendToC_emit by done. cbn [seenHeaders].
    by rewrite lookup_insert_ne.
Qed.

(** Three headings of one slug [b], with headings of other slugs before and
    between them, and any headings after them. *)
Lemma appendAll_three (t1 t2 t3 b : string) (i1 i2 i3 : Z)
    (A B C D : list (string * Z)) (st : tocState) :
  skipHeaders st ≤ 0 → seenHeaders st !! b = None →
  slugify t1 = b → slugify t2 = b → slugify t3 = b →
  Forall (λ call, slugify call.1 ≠ b) (A ++ B ++ C) →
  ∃ eA eB eC eD,
    length eA = length A ∧ length eB = length B
    ∧ length eC = length C ∧ length eD = length D
    ∧ toc (appendAll (A ++ (t1, i1) :: B ++ (t2, i2) :: C ++ (t3, i3) :: D) st) =
      (toc st ++ eA ++ tocLine i1 t1 b ::
                 eB ++ tocLine i2 t2 (b +:+ "-1") ::
                 eC ++ tocLine i3 t3 (b +:+ "-2") :: eD)%list.
Proof.
  intros Hskip Hfresh H1 H2 H3 Hother.
  apply Forall_app in Hother as [HA Hother].
  apply Forall_app in Hother as [HB HC].
  (* the headings before the first *)
  destruct (appendAll_emits A st Hskip) as (eA & HlA & HtA & HsA).
  pose proof (appendAll_other A st b HA) as HrA. rewrite Hfresh in HrA.
  set (sA := appendAll A st) in *.
  (* the first *)
  assert (skipHeaders sA ≤ 0) as HskA by lia.
  pose proof (appendToC_fresh t1 i1 sA HskA) as E1. rewrite H1 in E1.
  specialize (E1 HrA). set (s1 := appendToC t1 i1 sA) in *.
  assert (skipHeaders s1 ≤ 0) as Hsk1 by by rewrite E1.
  (* the headings between the first and the second *)
  destruct (appendAll_emits B s1 Hsk1) as (eB & HlB & HtB & HsB).
  pose proof (appendAll_other B s1 b HB) as HrB.
  rewrite E1 in HrB at 2. cbn [seenHeaders] in HrB. rewrite lookup_insert_eq in HrB.
  set (sB := appendAll B s1) in *.
  (* the second *)
  assert (skipHeaders sB ≤ 0) as HskB by lia.
  pose proof (appendToC_collision t2 i2 sB 1 HskB) as E2. rewrite H2 in E2.
  specialize (E2 HrB ltac:(lia)). set (s2 := appendToC t2 i2 sB) in *.
  assert (skipHeaders s2 ≤ 0) as Hsk2 by by rewrite E2.
  (* the headings between the second and the third *)
  destruct (appendAll_emits C s2 Hsk2) as (eC & HlC & HtC & HsC).
  pose proof (appendAll_other C s2 b HC) as HrC.
  rewrite E2 in HrC at 2. cbn [seenHeaders] in HrC. rewrite lookup_insert_eq in HrC.
  set (sC := appendAll C s2) in *.
  (* the third *)
  assert (skipHeaders sC ≤ 0) as HskC by lia.
  pose proof (appendToC_collision t3 i3 sC 2 HskC) as E3. rewrite H3 in E3.
  specialize (E3 HrC ltac:(lia)). set (s3 := appendToC t3 i3 sC) in *.
  assert (skipHeaders s3 ≤ 0) as Hsk3 by by rewrite E3.
  (* the headings after the third *)
  destruct (appendAll_emits D s3 Hsk3) as (eD & HlD & HtD & _).
  exists eA, eB, eC, eD. repeat (split; [done|]).
  rewrite appendAll_app.
  change (appendAll ((t1, i1) :: ?l) (appendAll A st)) with (appendAll l s1).
  rewrite appendAll_app.
  change (appendAll ((t2, i2) :: ?l) (appendAll B s1)) with (appendAll l s2).
  rewrite appendAll_app.
  change (appendAll ((t3, i3) :: ?l) (appendAll C s2)) with (appendAll l s3).
  rewrite HtD, E3. cbn [toc]. rewrite HtC, E2. cbn [toc]. rewrite HtB, E1. cbn [toc].
  rewrite HtA. rewrite <- !app_assoc. reflexivity.
Qed.

(** *** Underlines and the tracked line *)

Lemma rUnderscoreHeader1_classify (depth : Z) (line : string) :
  rUnderscoreHeader1 line = true → classify depth line = Setext 0.
Proof.
  intros H. unfold classify.
  assert (rHashHeader line = None) as ->; [|by rewrite H].
  destruct line as [|c r]; [done|]. simpl in H.
  apply andb_true_iff in H as [->%Ascii.eqb_eq _]. reflexivity.
Qed.

Lemma trackedLine_app (depth : Z) (prev : string) (lines1 lines2 : list string) :
  trackedLine depth prev (lines1 ++ lines2) =
  trackedLine depth (trackedLine depth prev lines1) lines2.
Proof.
  revert prev. induction lines1 as [|l lines1 IH]; intros prev; [done|].
  simpl. by destruct (classify depth l).
Qed.

Lemma trackedLine_snoc (depth : Z) (prev : string) (lines : list string) (line : string) :
  classify depth line ≠ Dropped →
  trackedLine depth prev (lines ++ [line]) = line.
Proof.
  intros H. rewrite trackedLine_app. simpl. by destruct (classify depth line).
Qed.

Lemma scanStep_underline1 (depth : Z) (st : tocState) (line : string) :
  rUnderscoreHeader1 line = true →
  scanStep depth st line =
  setPreviousLine line (appendToC (previousLine st) 0 st).
Proof.
  intros H. by rewrite scanStep_classify, (rUnderscoreHeader1_classify depth line H).
Qed.

Lemma scanStep_dropped (depth : Z) (st : tocState) (line : string) :
  classify depth line = Dropped → scanStep depth st line = st.
Proof. intros H. by rewrite scanStep_classify, H. Qed.

Lemma appendToC_changes (title : string) (indent : Z) (line : string) (st : tocState) :
  setPreviousLine line (appendToC title indent st) ≠ st.
Proof.
  intros H. destruct (Z.lt_ge_cases 0 (skipHeaders st)) as [Hpos|Hle].
  - rewrite appendToC_skip in H by done.
    apply (f_equal skipHeaders) in H. simpl in H. lia.
  - rewrite appendToC_emit in H by done.
    apply (f_equal (λ st, length (toc st))) in H. simpl in H.
    rewrite length_app in H. simpl in H. lia.
Qed.

(** *** The run of [#] the heading pattern captures *)

Lemma matchSpaceTitle_Some (s : string) :
  s ≠ EmptyString → noNewline s → is_Some (matchSpaceTitle s).
Proof.
  intros Hne Hs. destruct s as [|c r]; [done|]. unfold noNewline in Hs.
  assert (matchTitle (String c r) = Some (String c r)) as E.
  { unfold matchTitle. by rewrite Hs. }
  unfold matchSpaceTitle. rewrite E.
  destruct (isSpace c); [|done]. by destruct (matchTitle r).
Qed.

Lemma matchSpaceTitle_noNewline (s t : string) :
  matchSpaceTitle s = Some t → s ≠ EmptyString ∧ noNewline s.
Proof.
  destruct s as [|c r]; [done|]. intros H. split; [done|].
  unfold noNewline.
  assert (∀ u v, matchTitle u = Some v → anyByte isLF u = false) as Ht.
  { intros [|x u] v; [done|]. unfold matchTitle.
    by destruct (anyByte isLF (String x u)). }
  unfold matchSpaceTitle in H. destruct (isSpace c) eqn:Hc.
  - destruct (matchTitle r) eqn:Hr; [|by eapply Ht].
    apply Ht in Hr. simpl. rewrite Hr, orb_false_r.
    unfold isSpace in Hc. apply Ascii.eqb_eq in Hc as ->. reflexivity.
  - by eapply Ht.
Qed.

Lemma rHashHeader_leading (line : string) :
  is_Some (rHashHeader line) → (1 ≤ leadingHashes line)%nat.
Proof.
  destruct line as [|c r]; simpl; [by intros [? ?]|].
  destruct (isHash c); [lia|by intros [? ?]].
Qed.

Lemma rHashHeader_indent (line m1 m2 : string) :
  rHashHeader line = Some (m1, m2) →
  String.length m1 =
  if allBytes isHash line then (leadingHashes line - 1)%nat else leadingHashes line.
Proof.
  revert m1 m2. induction line as [|c r IH]; intros m1 m2; [done|].
  simpl. destruct (isHash c) eqn:Hc; [|done]. simpl andb.
  destruct (rHashHeader r) as [[i t]|] eqn:Hr.
  - intros [= <- <-]. simpl. rewrite (IH i t eq_refl).
    pose proof (rHashHeader_leading r) as Hlead. rewrite Hr in Hlead.
    specialize (Hlead (mk_is_Some _ _ eq_refl)).
    destruct (allBytes isHash r); lia.
  - destruct (matchSpaceTitle r) as [t|] eqn:Ht; [|done].
    intros [= <- <-]. simpl.
    apply matchSpaceTitle_noNewline in Ht as [Hne Hnl].
    destruct r as [|c' r']; [done|]. simpl.
    destruct (isHash c') eqn:Hc'; [|reflexivity]. simpl andb.
    simpl in Hr. rewrite Hc' in Hr.
    destruct (rHashHeader r') as [[? ?]|]; [done|].
    destruct (matchSpaceTitle r') eqn:Ht'; [done|].
    destruct r' as [|c'' r'']; [reflexivity|].
    destruct (matchSpaceTitle_Some (String c'' r'')) as [? E]; [done| |congruence].
    unfold noNewline in *. simpl in Hnl. by apply orb_false_elim in Hnl as [_ ?].
Qed.

(** The entries only grow. *)
Lemma scanLoop_toc_prefix (depth : Z) (lines : list string) (st : tocState) :
  ∃ more, toc (scanLoop depth lines st) = (toc st ++ more)%list.
Proof.
  revert st. induction lines as [|line lines IH]; intros st.
  - exists []. by rewrite app_nil_r.
  - change (scanLoop depth (line :: lines) st)
      with (scanLoop depth lines (scanStep depth st line)).
    destruct (IH (scanStep depth st line)) as [more ->].
    assert (∃ one, toc (scanStep depth st line) = (toc st ++ one)%list) as [one ->].
    { assert (∀ t i, ∃ one, toc (appendToC t i st) = (toc st ++ one)%list) as H.
      { intros t i. destruct (Z.lt_ge_cases 0 (skipHeaders st)) as [Hpos|Hle].
        - rewrite appendToC_skip by done. exists []. by rewrite app_nil_r.
        - rewrite appendToC_emit by done. by eexists. }
      rewrite scanStep_classify.
      destruct (classify depth line) as [|t i|i|]; simpl; [|apply H|apply H|];
        exists []; by rewrite app_nil_r. }
    exists (one ++ more)%list. by rewrite app_assoc.
Qed.

(** An underline of [=], wherever it is in the scan. *)
Lemma underline1_tail (depth : Z) (pre post : list string) (e : string)
    (st0 : tocState) :
  rUnderscoreHeader1 e = true →
  scanLoop depth (pre ++ e :: post) st0 =
    scanLoop depth post
      (setPreviousLine e
         (appendToC (previousLine (scanLoop depth pre st0)) 0 (scanLoop depth pre st0)))
  ∧ (skipHeaders (scanLoop depth pre st0) ≤ 0 →
     ∃ more,
       toc (scanLoop depth (pre ++ e :: post) st0) =
       (toc (scanLoop depth pre st0) ++
        [tocLine 0 (previousLine (scanLoop depth pre st0))
           (linkFor (seenHeaders (scanLoop depth pre st0))
              (slugify (previousLine (scanLoop depth pre st0))))] ++
        more)%list).
Proof.
  intros He. set (st := scanLoop depth pre st0).
  assert (scanLoop depth (pre ++ e :: post) st0 =
          scanLoop depth post (setPreviousLine e (appendToC (previousLine st) 0 st))) as E.
  { rewrite scanLoop_app.
    change (scanLoop depth (e :: post) (scanLoop depth pre st0))
      with (scanLoop depth post (scanStep depth st e)).
    by rewrite scanStep_underline1. }
  split; [done|].
  intros Hskip. rewrite E.
  destruct (scanLoop_toc_prefix depth post
              (setPreviousLine e (appendToC (previousLine st) 0 st))) as [more ->].
  exists more. rewrite appendToC_emit by done. simpl. by rewrite <- app_assoc.
Qed.

Lemma BuildMarkdownToc_error (d : string) (depth skip : Z) :
  (BuildMarkdownToc d depth skip).2 = (Scanner d).2.
Proof.
  unfold BuildMarkdownToc. destruct (Scanner d) as [lines [e|]]; reflexivity.
Qed.

End TocFacts.

(** ** The claims on the table of contents *)

(** C1, at the failing input.  The registry counts the slugs of the titles,
    not the anchors it hands out: after two headings [Intro], the second with
    the anchor [intro-1], a heading [Intro-1] is new to the registry and gets
    the anchor [intro-1] as well.  Two entries of one call carry the same
    anchor. *)
Theorem BuildMarkdownToc_duplicate_anchor :
  BuildMarkdownToc noUnicode
    ("# Intro" +:+ newline +:+ "# Intro" +:+ newline +:+ "# Intro-1" +:+ newline) 0 0 =
  ([ "Table of Contents";
     "=================";
     "1. [Intro](#intro)";
     "1. [Intro](#intro-1)";
     "1. [Intro-1](#intro-1)" ], None).
Proof. vm_compute. reflexivity. Qed.

(** C2.  When a scan emits three headings whose titles have the same slug
    [b], with any headings of other slugs before and between them, their
    anchors are [b], [b-1] and [b-2], in that order. *)
Theorem collision_numbering (toLower : string → string) (d : string)
    (depth skip : Z) (lines : list string) (t1 t2 t3 b : string) (i1 i2 i3 : Z)
    (A B C D : list (string * Z)) :
  Scanner d = (lines, None) →
  drop (Z.to_nat skip) (headingCalls depth EmptyString lines) =
    (A ++ (t1, i1) :: B ++ (t2, i2) :: C ++ (t3, i3) :: D)%list →
  slugify toLower t1 = b → slugify toLower t2 = b → slugify toLower t3 = b →
  Forall (λ call, slugify toLower call.1 ≠ b) (A ++ B ++ C) →
  ∃ eA eB eC eD,
    length eA = length A ∧ length eB = length B
    ∧ length eC = length C ∧ length eD = length D
    ∧ BuildMarkdownToc toLower d depth skip =
      ((tocBanner ++ eA ++ tocLine i1 t1 b ::
                     eB ++ tocLine i2 t2 (b +:+ "-1") ::
                     eC ++ tocLine i3 t3 (b +:+ "-2") :: eD)%list, None).
Proof.
  intros Hd Hcalls H1 H2 H3 Hother.
  rewrite (BuildMarkdownToc_ok toLower d depth skip lines Hd).
  change (toc (appendAll toLower (headingCalls depth EmptyString lines) (initState skip)))
    with (toc (setSkipHeaders 0
                 (appendAll toLower (headingCalls depth EmptyString lines)
                    (initState skip)))).
  rewrite appendAll_skip.
  change (setSkipHeaders 0 (initState skip)) with (initState 0).
  change (skipHeaders (initState skip)) with skip. rewrite Hcalls.
  destruct (appendAll_three toLower t1 t2 t3 b i1 i2 i3 A B C D (initState 0))
    as (eA & eB & eC & eD & HA & HB & HC & HD & E); try done.
  exists eA, eB, eC, eD. by rewrite E.
Qed.

Lemma collision_numbering_witness :
  BuildMarkdownToc noUnicode
    ("# Intro" +:+ newline +:+ "# Intro" +:+ newline +:+ "# Intro" +:+ newline) 0 0 =
  ([ "Table of Contents";
     "=================";
     "1. [Intro](#intro)";
     "1. [Intro](#intro-1)";
     "1. [Intro](#intro-2)" ], None).
Proof.
  destruct (collision_numbering noUnicode
              ("# Intro" +:+ newline +:+ "# Intro" +:+ newline +:+ "# Intro" +:+ newline)
              0 0 ["# Intro"; "# Intro"; "# Intro"]
              "Intro" "Intro" "Intro" "intro" 0 0 0 [] [] [] [])
    as (eA & eB & eC & eD & HA & HB & HC & HD & E);
    [reflexivity | reflexivity | reflexivity | reflexivity | reflexivity
    | constructor |].
  destruct eA; [|discriminate HA]. destruct eB; [|discriminate HB].
  destruct eC; [|discriminate HC]. destruct eD; [|discriminate HD].
  exact E.
Defined.

(** Other headings between the three do not change their anchors. *)
Lemma collision_numbering_example :
  BuildMarkdownToc noUnicode
    ("# Intro" +:+ newline +:+ "## Usage" +:+ newline +:+ "# Intro" +:+ newline +:+
     "Intro" +:+ newline +:+ "---" +:+ newline) 0 0 =
  ([ "Table of Contents";
     "=================";
     "1. [Intro](#intro)";
     "   1. [Usage](#usage)";
     "1. [Intro](#intro-1)";
     "   1. [Intro](#intro-2)" ], None).
Proof. vm_compute. reflexivity. Qed.

(** C5.  With [skipHeaders = N] the table of contents is the one that the
    heading occurrences after the first [N] give with nothing skipped and a
    registry that starts empty: the first [N] headings that pass the depth
    filter are absent and have registered no slug, and the first heading
    after them has its slug without a suffix, whatever the titles of the
    skipped ones. *)
Theorem skipped_headings (toLower : string → string) (d : string)
    (depth skip : Z) (lines : list string) :
  Scanner d = (lines, None) →
  BuildMarkdownToc toLower d depth skip =
    (toc (appendAll toLower
            (drop (Z.to_nat skip) (headingCalls depth EmptyString lines))
            (initState 0)), None)
  ∧ seenHeaders (scanLoop toLower depth lines (initState skip)) =
    seenHeaders (appendAll toLower
                   (drop (Z.to_nat skip) (headingCalls depth EmptyString lines))
                   (initState 0))
  ∧ ∀ (t : string) (i : Z) (rest : list (string * Z)),
      drop (Z.to_nat skip) (headingCalls depth EmptyString lines) = (t, i) :: rest →
      (BuildMarkdownToc toLower d depth skip).1 !! 2%nat =
      Some (tocLine i t (slugify toLower t)).
Proof.
  intros Hd.
  pose proof (appendAll_skip toLower (headingCalls depth EmptyString lines)
                (initState skip)) as E.
  simpl skipHeaders in E. change (setSkipHeaders 0 (initState skip)) with (initState 0) in E.
  rewrite (BuildMarkdownToc_ok toLower d depth skip lines Hd).
  rewrite scanLoop_calls. simpl previousLine. simpl seenHeaders.
  rewrite <- E. split; [done|]. split; [done|].
  intros t i rest Hdrop. simpl fst.
  change (toc (appendAll toLower (headingCalls depth EmptyString lines) (initState skip)))
    with (toc (setSkipHeaders 0
                 (appendAll toLower (headingCalls depth EmptyString lines)
                    (initState skip)))).
  rewrite E, Hdrop. apply appendAll_first_unsuffixed.
Qed.

Lemma skipped_headings_witness :
  BuildMarkdownToc noUnicode ("# Intro" +:+ newline +:+ "## Intro" +:+ newline) 0 1 =
  ([ "Table of Contents";
     "=================";
     "   1. [Intro](#intro)" ], None).
Proof.
  apply (skipped_headings noUnicode _ 0 1 ["# Intro"; "## Intro"]). reflexivity.
Defined.

(** C3, the claim as it is written fails: an underline of [=] that is the
    first line of the document, or that follows a blank line, gives an entry
    all the same; its title is empty. *)
Lemma underline1_without_title :
  BuildMarkdownToc noUnicode ("===" +:+ newline) 0 0 =
    (["Table of Contents"; "================="; "1. [](#)"], None)
  ∧ BuildMarkdownToc noUnicode
      ("Title" +:+ newline +:+ newline +:+ "===" +:+ newline) 0 0 =
    (["Table of Contents"; "================="; "1. [](#)"], None).
Proof. split; vm_compute; reflexivity. Qed.

(** C3, amended.  Every line made of [=] only calls [appendToC] with the
    tracked previous line as the title and the indent 0, whatever that line
    is, a blank one and none at all included; once the skip counter is used
    up this is one more entry, at depth 0 and with that title.  At the start
    of the document and after a blank line the title is empty. *)
Theorem underline1_always_emits (toLower : string → string) (depth : Z)
    (pre post : list string) (e : string) (st0 : tocState) :
  rUnderscoreHeader1 e = true →
  let st := scanLoop toLower depth pre st0 in
  scanLoop toLower depth (pre ++ e :: post) st0 =
    scanLoop toLower depth post
      (setPreviousLine e (appendToC toLower (previousLine st) 0 st))
  ∧ (skipHeaders st ≤ 0 →
     ∃ more,
       toc (scanLoop toLower depth (pre ++ e :: post) st0) =
       (toc st ++
        [tocLine 0 (previousLine st)
           (linkFor (seenHeaders st) (slugify toLower (previousLine st)))] ++
        more)%list)
  ∧ (pre = [] → previousLine st = previousLine st0)
  ∧ (∀ pre', pre = (pre' ++ [EmptyString])%list → previousLine st = EmptyString).
Proof.
  intros He st.
  destruct (underline1_tail toLower depth pre post e st0 He) as [E Hemit].
  split; [done|]. split; [done|]. split.
  - by intros ->.
  - intros pre' ->. subst st. rewrite scanLoop_previousLine.
    by apply trackedLine_snoc.
Qed.

Lemma underline1_always_emits_witness :
  toc (scanLoop noUnicode 0 ([] ++ ["==="]) (initState 0)) =
  ["Table of Contents"; "================="; "1. [](#)"].
Proof.
  destruct (underline1_always_emits noUnicode 0 [] [] "===" (initState 0) eq_refl)
    as (E & _).
  rewrite E. reflexivity.
Defined.

(** C4, the claim as it is written fails on a line made of [#] only: the
    pattern takes the last [#] as the title, so that [###] is a heading of
    two [#] with the title [#], and a maximal depth of 2 lets it in although
    the line starts with three [#]. *)
Lemma depth_filter_hashes_only :
  leadingHashes "###" = 3%nat
  ∧ BuildMarkdownToc noUnicode ("###" +:+ newline) 2 0 =
    (["Table of Contents"; "================="; "   1. [#](#)"], None).
Proof. split; vm_compute; reflexivity. Qed.

(** C4, amended.  A [#] heading is left out exactly when the run of [#] the
    pattern captures is longer than a positive maximal depth; the run is the
    leading [#] of the line, one less on a line made of [#] only.  A line that
    is left out changes nothing: the scan goes on as if the line were not
    there.  A maximal depth of 0 leaves nothing out.  The error a scan ends
    with does not depend on the depth. *)
Theorem depth_filter (toLower : string → string) (depth : Z)
    (pre post : list string) (line m1 m2 : string) (st0 : tocState) :
  rHashHeader line = Some (m1, m2) →
  let st := scanLoop toLower depth pre st0 in
  len m1 = Z.of_nat (if allBytes isHash line
                     then leadingHashes line - 1 else leadingHashes line)
  ∧ (0 < depth → scanStep toLower depth st line = st ↔ depth < len m1)
  ∧ (0 < depth → depth < len m1 →
     scanLoop toLower depth (pre ++ line :: post) st0 =
     scanLoop toLower depth (pre ++ post) st0)
  ∧ (depth ≤ 0 ∨ len m1 ≤ depth →
     scanLoop toLower depth (pre ++ line :: post) st0 =
     scanLoop toLower depth post
       (setPreviousLine line (appendToC toLower m2 (len m1 - 1) st)))
  ∧ ∀ (d : string) (skip : Z),
      (BuildMarkdownToc toLower d depth skip).2 = (Scanner d).2.
Proof.
  intros Hm st.
  assert (∀ s, scanStep toLower depth s line =
               if (0 <? depth) && (depth <? len m1) then s
               else setPreviousLine line (appendToC toLower m2 (len m1 - 1) s)) as Hstep.
  { intros s. unfold scanStep. by rewrite Hm. }
  assert (scanLoop toLower depth (pre ++ line :: post) st0 =
          scanLoop toLower depth post (scanStep toLower depth st line)) as Hloop.
  { by rewrite scanLoop_app. }
  split; [|split; [|split; [|split]]].
  - unfold len. f_equal. by apply (rHashHeader_indent line m1 m2).
  - intros Hpos. rewrite Hstep. rewrite (proj2 (Z.ltb_lt 0 depth) Hpos). simpl andb.
    destruct (Z.ltb_spec depth (len m1)) as [Hlt|Hge].
    + by split.
    + split; [|lia]. intros H. by apply appendToC_changes in H.
  - intros Hpos Hlt. rewrite Hloop, Hstep.
    rewrite (proj2 (Z.ltb_lt 0 depth) Hpos), (proj2 (Z.ltb_lt depth (len m1)) Hlt).
    simpl andb. cbv iota. by rewrite scanLoop_app.
  - intros Hkeep. rewrite Hloop, Hstep.
    assert ((0 <? depth) && (depth <? len m1) = false) as ->; [|done].
    apply andb_false_iff. destruct Hkeep as [H|H].
    + left. by apply Z.ltb_ge.
    + right. by apply Z.ltb_ge.
  - intros d skip. apply BuildMarkdownToc_error.
Qed.

Lemma depth_filter_witness :
  toc (scanLoop noUnicode 2 (["# A"; "## B"] ++ ["### C"]) (initState 0)) =
  ["Table of Contents"; "================="; "1. [A](#a)"; "   1. [B](#b)"].
Proof.
  destruct (depth_filter noUnicode 2 ["# A"; "## B"] [] "### C" "###" "C"
              (initState 0) eq_refl) as (_ & _ & E & _).
  rewrite E by reflexivity. reflexivity.
Defined.

(** The example of the specification, on the whole function. *)
Lemma depth_filter_example :
  BuildMarkdownToc noUnicode
    ("# A" +:+ newline +:+ "## B" +:+ newline +:+ "### C" +:+ newline +:+
     "# D" +:+ newline) 2 0 =
  (["Table of Contents"; "================="; "1. [A](#a)"; "   1. [B](#b)";
    "1. [D](#d)"], None).
Proof. vm_compute. reflexivity. Qed.

(** C10, the claim as it is written fails: a heading line the depth filter
    leaves out does not update the tracked line ([continue] comes before the
    update).  The underline after [### Bar], with the maximal depth 2, takes
    its title from the line before the heading; so does the underline after
    a [---] line with the maximal depth 1. *)
Lemma tracker_skips_dropped_line :
  BuildMarkdownToc noUnicode
    ("Foo" +:+ newline +:+ "### Bar" +:+ newline +:+ "===" +:+ newline) 2 0 =
    (["Table of Contents"; "================="; "1. [Foo](#foo)"], None)
  ∧ BuildMarkdownToc noUnicode
      ("Foo" +:+ newline +:+ "---" +:+ newline +:+ "===" +:+ newline) 1 0 =
    (["Table of Contents"; "================="; "1. [Foo](#foo)"], None).
Proof. split; vm_compute; reflexivity. Qed.

(** C10, amended.  Every scanned line that the depth filter does not leave
    out becomes the tracked previous line, heading lines and underlines
    included; a line of [=] right after such a line calls [appendToC] with
    that line as it is as the title and the indent 0, which is one more entry
    once the skip counter is used up. *)
Theorem tracker_after_kept_line (toLower : string → string) (depth : Z)
    (pre post : list string) (line e : string) (st0 : tocState) :
  classify depth line ≠ Dropped →
  rUnderscoreHeader1 e = true →
  let st := scanLoop toLower depth (pre ++ [line]) st0 in
  previousLine st = line
  ∧ scanLoop toLower depth (pre ++ line :: e :: post) st0 =
    scanLoop toLower depth post (setPreviousLine e (appendToC toLower line 0 st))
  ∧ (skipHeaders st ≤ 0 →
     ∃ more,
       toc (scanLoop toLower depth (pre ++ line :: e :: post) st0) =
       (toc st ++
        [tocLine 0 line (linkFor (seenHeaders st) (slugify toLower line))] ++
        more)%list).
Proof.
  intros Hkept He st.
  assert (previousLine st = line) as Hprev.
  { subst st. rewrite scanLoop_previousLine. by apply trackedLine_snoc. }
  destruct (underline1_tail toLower depth (pre ++ [line]) post e st0 He) as [E Hemit].
  fold st in E, Hemit. rewrite Hprev in E, Hemit.
  rewrite <- app_assoc in E, Hemit. simpl in E, Hemit. done.
Qed.

Lemma tracker_after_kept_line_witness :
  toc (scanLoop noUnicode 3 ([] ++ ["# Title"; "==="]) (initState 0)) =
  ["Table of Contents"; "================="; "1. [Title](#title)";
   "1. [# Title](#-title)"].
Proof.
  destruct (tracker_after_kept_line noUnicode 3 [] [] "# Title" "===" (initState 0))
    as (_ & E & _); [discriminate|reflexivity|].
  rewrite E. reflexivity.
Defined.

(** C9.  When the scan of the lines fails, [BuildMarkdownToc] returns the
    error of the scanner and an empty slice, with none of the entries and not
    even the banner; when it does not, the error is nil and the slice is the
    table of contents of the scan. *)
Theorem BuildMarkdownToc_scan_error (toLower : string → string) (d : string)
    (depth skip : Z) :
  match (Scanner d).2 with
  | Some e => BuildMarkdownToc toLower d depth skip = ([], Some e)
  | None =>
      BuildMarkdownToc toLower d depth skip =
      (toc (scanLoop toLower depth (Scanner d).1 (initState skip)), None)
  end.
Proof.
  unfold BuildMarkdownToc. by destruct (Scanner d) as [lines [e|]].
Qed.

Lemma BuildMarkdownToc_scan_error_witness :
  BuildMarkdownToc noUnicode
    ("# Title" +:+ newline +:+ Repeat "a" MaxScanTokenSize) 3 0 =
  ([], Some ErrTooLong).
Proof.
  pose proof (BuildMarkdownToc_scan_error noUnicode
                ("# Title" +:+ newline +:+ Repeat "a" MaxScanTokenSize) 3 0) as H.
  vm_compute in H. vm_compute. exact H.
Defined.

(** ** The extraction functions *)

Section Rows.

Context {A : Type} (name : A → string) (obj : A → TfTableObject).

(** Every object is filed under its own name. *)
Hypothesis obj_name : ∀ item, Name (obj item) = name item.

#[local] Abbreviation insertItem := (insertItem name obj).

Lemma collect_from_dom (items : list A) (m : gmap string TfTableObject) (k : string) :
  k ∈ dom (fold_left insertItem items m) ↔ k ∈ dom m ∨ k ∈ name <$> items.
Proof.
  revert m. induction items as [|x items IH]; intros m; simpl.
  - rewrite elem_of_nil. tauto.
  - rewrite IH. unfold insertItem. rewrite dom_insert_L, elem_of_cons.
    rewrite elem_of_union, elem_of_singleton. tauto.
Qed.

Lemma collect_dom (items : list A) (k : string) :
  k ∈ dom (collect name obj items) ↔ k ∈ name <$> items.
Proof.
  unfold collect. rewrite collect_from_dom, dom_empty_L.
  rewrite elem_of_empty. tauto.
Qed.

Lemma collect_from_names (items : list A) (m : gmap string TfTableObject) :
  (∀ k o, m !! k = Some o → Name o = k) →
  ∀ k o, fold_left insertItem items m !! k = Some o → Name o = k.
Proof.
  revert m. induction items as [|x items IH]; intros m Hm; [done|].
  simpl. apply IH. intros k o. unfold insertItem. rewrite lookup_insert.
  case_decide as E; [|by apply Hm]. intros [= <-]. by rewrite obj_name.
Qed.

Lemma collect_names (items : list A) (k : string) (o : TfTableObject) :
  collect name obj items !! k = Some o → Name o = k.
Proof. apply collect_from_names. intros ? ?. by rewrite lookup_empty. Qed.

(** With no name twice, the map does not depend on the order of the
    items. *)
Lemma collect_from_list_to_map (items : list A) (m : gmap string TfTableObject) :
  NoDup (name <$> items) →
  fold_left insertItem items m =
  list_to_map ((λ item, (name item, obj item)) <$> items) ∪ m.
Proof.
  revert m. induction items as [|x items IH]; intros m Hnd; simpl.
  - by rewrite (left_id_L ∅ (∪)).
  - rewrite fmap_cons in Hnd. apply NoDup_cons in Hnd as [Hx Hnd].
    rewrite IH by done. unfold insertItem. rewrite <- insert_union_l.
    rewrite insert_union_r; [done|].
    apply not_elem_of_list_to_map_1. by rewrite <- list_fmap_compose.
Qed.

Lemma collect_Permutation (items items' : list A) :
  NoDup (name <$> items) → items ≡ₚ items' →
  collect name obj items = collect name obj items'.
Proof.
  intros Hnd Hp. unfold collect.
  rewrite !collect_from_list_to_map; [|by rewrite <- Hp|done].
  f_equal. apply list_to_map_proper.
  - by rewrite <- list_fmap_compose.
  - by rewrite Hp.
Qed.

End Rows.

Lemma getSortedKeys_sorted (objs : gmap string TfTableObject) :
  StronglySorted String.le (getSortedKeys objs).
Proof. apply StronglySorted_merge_sort; apply _. Qed.

Lemma getSortedKeys_Permutation (objs : gmap string TfTableObject) :
  getSortedKeys objs ≡ₚ (map_to_list objs).*1.
Proof. apply merge_sort_Permutation. Qed.

Lemma getSortedKeys_NoDup (objs : gmap string TfTableObject) :
  NoDup (getSortedKeys objs).
Proof. rewrite getSortedKeys_Permutation. apply NoDup_fst_map_to_list. Qed.

Lemma getSortedKeys_elem_of (objs : gmap string TfTableObject) (k : string) :
  k ∈ getSortedKeys objs ↔ k ∈ dom objs.
Proof.
  rewrite getSortedKeys_Permutation, elem_of_dom, list_elem_of_fmap. split.
  - intros [[k' o] [-> H]]. apply elem_of_map_to_list in H. by exists o.
  - intros [o H]. exists (k, o). split; [done|]. by apply elem_of_map_to_list.
Qed.

(** The keys come out the same in whatever order the range loop of
    [getSortedKeys] has visited the map. *)
Lemma getSortedKeys_any_order (objs : gmap string TfTableObject) (keys : list string) :
  keys ≡ₚ (map_to_list objs).*1 → sortStrings keys = getSortedKeys objs.
Proof.
  intros Hp. apply (StronglySorted_unique String.le).
  - apply StronglySorted_merge_sort; apply _.
  - apply getSortedKeys_sorted.
  - unfold getSortedKeys, sortStrings. by rewrite !merge_sort_Permutation.
Qed.

Lemma getSortedKeys_dom (objs objs' : gmap string TfTableObject) :
  dom objs = dom objs' → getSortedKeys objs = getSortedKeys objs'.
Proof.
  intros Hdom. apply (StronglySorted_unique String.le);
    [apply getSortedKeys_sorted..|].
  apply NoDup_Permutation; [apply getSortedKeys_NoDup..|].
  intros k. by rewrite !getSortedKeys_elem_of, Hdom.
Qed.

Lemma rowKeys_sortedRows (row : TfTableObject → list string)
    (objs : gmap string TfTableObject) :
  (∀ o, List.hd EmptyString (row o) = Name o) →
  (∀ k o, objs !! k = Some o → Name o = k) →
  rowKeys (sortedRows row objs) = getSortedKeys objs.
Proof.
  intros Hrow Hobjs. unfold rowKeys, sortedRows.
  assert (∀ keys : list string, (∀ k, k ∈ keys → k ∈ dom objs) →
            (λ r, List.hd EmptyString r) <$> ((λ k, row (objs !!! k)) <$> keys) = keys)
    as H.
  { intros keys. induction keys as [|k keys IH]; intros Hin; [done|].
    rewrite !fmap_cons. f_equal.
    - rewrite Hrow. destruct (proj1 (elem_of_dom objs k)) as [o Ho].
      { apply Hin. by left. }
      rewrite (lookup_total_correct _ _ _ Ho). by apply Hobjs.
    - apply IH. intros k' Hk'. apply Hin. by right. }
  apply H. intros k. by rewrite getSortedKeys_elem_of.
Qed.

Section Tables.

Context {A : Type} (name : A → string) (obj : A → TfTableObject)
  (row : TfTableObject → list string).

Hypothesis obj_name : ∀ item, Name (obj item) = name item.
Hypothesis row_name : ∀ o, List.hd EmptyString (row o) = Name o.

(** What the five functions have in common: the rows are in the ascending
    order of their keys, no key comes twice, the keys are the names of the
    items, and they are the same list for the same items in another order;
    so are the rows when no two items have the same name. *)
Lemma sortedRows_collect (items : list A) :
  let data := sortedRows row (collect name obj items) in
  StronglySorted String.le (rowKeys data)
  ∧ NoDup (rowKeys data)
  ∧ (∀ k, k ∈ rowKeys data ↔ k ∈ name <$> items)
  ∧ (∀ items', items ≡ₚ items' →
       rowKeys (sortedRows row (collect name obj items')) = rowKeys data)
  ∧ (NoDup (name <$> items) → ∀ items', items ≡ₚ items' →
       sortedRows row (collect name obj items') = data).
Proof.
  intros data. subst data.
  assert (∀ l, rowKeys (sortedRows row (collect name obj l)) =
               getSortedKeys (collect name obj l)) as E.
  { intros l. apply rowKeys_sortedRows; [done|]. by apply collect_names. }
  rewrite E. split; [apply getSortedKeys_sorted|].
  split; [apply getSortedKeys_NoDup|]. split; [|split].
  - intros k. by rewrite getSortedKeys_elem_of, collect_dom.
  - intros items' Hp. rewrite E. apply getSortedKeys_dom.
    apply set_eq. intros k. by rewrite !collect_dom, Hp.
  - intros Hnd items' Hp. by rewrite (collect_Permutation name obj items items').
Qed.

End Tables.

Lemma keyedAndSorted_collect {A : Type} (name : A → string)
    (obj : A → TfTableObject) (row : TfTableObject → list string)
    (items items' : list A) :
  (∀ item, Name (obj item) = name item) →
  (∀ o, List.hd EmptyString (row o) = Name o) →
  keyedAndSorted name items items'
    (sortedRows row (collect name obj items))
    (sortedRows row (collect name obj items')).
Proof.
  intros Hobj Hrow.
  destruct (sortedRows_collect name obj row Hobj Hrow items)
    as (Hsorted & Hnodup & Hkeys & Hperm & Hsame).
  repeat split; try done.
  - by apply Hkeys.
  - by apply Hkeys.
  - by apply Hperm.
  - intros Hnd Hp. by apply Hsame.
Qed.





Lemma GetVarsTable_example :
  GetVarsTable (exampleModule ["zeta"; "alpha"; "mu"]) "https://git.example" "net" =
  "| Variable | Type | Description | Code Position |" +:+ newline +:+
  "| ---- | ------ | -------- | ------ |" +:+ newline +:+
  "| alpha | string | a value | [variables.tf: 12](https://git.example/net/variables.tf#L12) |"
    +:+ newline +:+
  "| mu | string | a value | [variables.tf: 12](https://git.example/net/variables.tf#L12) |"
    +:+ newline +:+
  "| zeta | string | a value | [variables.tf: 12](https://git.example/net/variables.tf#L12) |".
Proof. vm_compute. reflexivity. Qed.

(** Two resources of different types can have the same name: they are filed
    under the same key, the one visited last stays, and the row then depends
    on the order of the visit. *)
Lemma same_name_depends_on_order :
  let web := tfconfig.Resource.mk "aws_instance" "web"
               (tfconfig.mkSourcePos "main.tf" 1) in
  let eip := tfconfig.Resource.mk "aws_eip" "web"
               (tfconfig.mkSourcePos "main.tf" 9) in
  GetManagedResourcesData (tfconfig.mkModule [] [] [web; eip] [] []) "u" "m" =
    [["web"; "aws_eip"; "[main.tf: 9](u/m/main.tf#L9)"]]
  ∧ GetManagedResourcesData (tfconfig.mkModule [] [] [eip; web] [] []) "u" "m" =
    [["web"; "aws_instance"; "[main.tf: 1](u/m/main.tf#L1)"]].
Proof. split; vm_compute; reflexivity. Qed.

(** * Further properties *)

(** ** The slug generator on ASCII titles *)

Lemma mapBytes_append (f : ascii → ascii) (s t : string) :
  mapBytes f (s +:+ t) = mapBytes f s +:+ mapBytes f t.
Proof. induction s as [|c s IH]; [done|]. rewrite append_cons. simpl. by rewrite IH. Qed.

Lemma allBytes_append (p : ascii → bool) (s t : string) :
  allBytes p (s +:+ t) = allBytes p s && allBytes p t.
Proof.
  induction s as [|c s IH]; [done|]. rewrite append_cons. simpl.
  by rewrite IH, andb_assoc.
Qed.

Lemma dropped_fold_append (s t : string) :
  fold_left (λ s c, Replace s c EmptyString) droppedChars (s +:+ t) =
  fold_left (λ s c, Replace s c EmptyString) droppedChars s +:+
  fold_left (λ s c, Replace s c EmptyString) droppedChars t.
Proof.
  unfold droppedChars. cbn [fold_left]. by rewrite !Replace_byte_append.
Qed.

Lemma slugify_append_ascii (toLower : string → string) (s t : string) :
  isASCII s = true → isASCII t = true →
  slugify toLower (s +:+ t) = slugify toLower s +:+ slugify toLower t.
Proof.
  intros Hs Ht. unfold slugify, ToLower.
  assert (isASCII (s +:+ t) = true) as ->.
  { unfold isASCII in *. by rewrite allBytes_append, Hs, Ht. }
  rewrite Hs, Ht, mapBytes_append, dropped_fold_append.
  apply (Replace_byte_append " "%char).
Qed.

Lemma slugify_byte (toLower : string → string) (c : ascii) :
  isASCII (String c EmptyString) = true →
  allBytes slugByte (slugify toLower (String c EmptyString)) = true.
Proof.
  destruct c as [[] [] [] [] [] [] [] []]; intros H;
    first [discriminate H | vm_compute; reflexivity].
Qed.

Lemma slugify_slugByte (toLower : string → string) (c : ascii) :
  slugByte c = true →
  slugify toLower (String c EmptyString) = String c EmptyString.
Proof.
  destruct c as [[] [] [] [] [] [] [] []]; intros H;
    first [discriminate H | vm_compute; reflexivity].
Qed.

Lemma slugify_byte_length (toLower : string → string) (c : ascii) :
  isASCII (String c EmptyString) = true →
  (String.length (slugify toLower (String c EmptyString)) ≤ 1)%nat.
Proof.
  destruct c as [[] [] [] [] [] [] [] []]; intros H;
    first [discriminate H | vm_compute; repeat constructor].
Qed.

Lemma slugByte_ascii (s : string) : allBytes slugByte s = true → isASCII s = true.
Proof.
  unfold isASCII. induction s as [|c s IH]; [done|]. simpl.
  intros [Hc Hs]%andb_true_iff. rewrite IH by done. rewrite andb_true_r.
  unfold slugByte in Hc. by repeat (apply andb_true_iff in Hc as [Hc _]).
Qed.

Lemma isASCII_cons (c : ascii) (s : string) :
  isASCII (String c s) = isASCII (String c EmptyString) && isASCII s.
Proof. unfold isASCII. simpl. by rewrite andb_true_r. Qed.

Lemma slugify_alphabet (toLower : string → string) (s : string) :
  isASCII s = true → allBytes slugByte (slugify toLower s) = true.
Proof.
  induction s as [|c s IH]; [done|].
  rewrite isASCII_cons. intros [Hc Hs]%andb_true_iff.
  change (String c s) with (String c EmptyString +:+ s).
  rewrite slugify_append_ascii, allBytes_append by done.
  by rewrite slugify_byte, IH.
Qed.

Lemma slugify_fixed (toLower : string → string) (s : string) :
  allBytes slugByte s = true → slugify toLower s = s.
Proof.
  induction s as [|c s IH]; [done|]. simpl.
  intros [Hc Hs]%andb_true_iff.
  change (String c s) with (String c EmptyString +:+ s).
  rewrite slugify_append_ascii.
  - by rewrite slugify_slugByte, IH.
  - apply slugByte_ascii. simpl. by rewrite Hc.
  - by apply slugByte_ascii.
Qed.

(** X1.  On ASCII titles [slugify] works byte by byte: the slug of two
    titles put together is their two slugs put together. *)
Theorem slugify_concat (toLower : string → string) (s t : string) :
  isASCII s = true → isASCII t = true →
  slugify toLower (s +:+ t) = slugify toLower s +:+ slugify toLower t.
Proof. apply slugify_append_ascii. Qed.

Lemma slugify_concat_witness :
  slugify noUnicode ("Hello, " +:+ "World!") = "hello-" +:+ "world".
Proof. apply (slugify_concat noUnicode "Hello, " "World!"); reflexivity. Defined.

(** X2.  The slug of an ASCII title is made of ASCII bytes only, none of them
    one of the twenty dropped characters, a space or an upper-case letter,
    and it is not longer than the title. *)
Theorem slugify_output (toLower : string → string) (s : string) :
  isASCII s = true →
  allBytes slugByte (slugify toLower s) = true
  ∧ (String.length (slugify toLower s) ≤ String.length s)%nat.
Proof.
  intros Hs. split; [by apply slugify_alphabet|].
  induction s as [|c s IH]; [done|].
  rewrite isASCII_cons in Hs. apply andb_true_iff in Hs as [Hc Hs].
  change (String c s) with (String c EmptyString +:+ s).
  rewrite slugify_append_ascii, length_append by done.
  specialize (IH Hs).
  change (String.length (String c EmptyString +:+ s)) with (S (String.length s)).
  pose proof (slugify_byte_length toLower c Hc). lia.
Qed.

Lemma slugify_output_witness :
  allBytes slugByte (slugify noUnicode "What's New? (v2.0) [beta]") = true.
Proof. apply (slugify_output noUnicode "What's New? (v2.0) [beta]"). reflexivity. Defined.

(** X3.  On ASCII titles [slugify] is idempotent: a slug is its own slug. *)
Theorem slugify_idempotent (toLower : string → string) (s : string) :
  isASCII s = true →
  slugify toLower (slugify toLower s) = slugify toLower s.
Proof. intros Hs. by apply slugify_fixed, slugify_alphabet. Qed.

Lemma slugify_idempotent_witness :
  slugify noUnicode (slugify noUnicode "Getting Started: Part #1") =
  slugify noUnicode "Getting Started: Part #1".
Proof. apply (slugify_idempotent noUnicode). reflexivity. Defined.

(** ** The heading patterns *)

Lemma rHashHeader_head (line : string) :
  is_Some (rHashHeader line) → ∃ r, line = String "#"%char r.
Proof.
  destruct line as [|c r]; [by intros [? ?]|]. simpl.
  destruct (isHash c) eqn:Hc; [|by intros [? ?]].
  unfold isHash in Hc. apply Ascii.eqb_eq in Hc as ->. by exists r.
Qed.

(** X4.  No line matches two of the three heading patterns: the order of the
    cases of the switch does not matter. *)
Theorem patterns_exclusive (line : string) :
  (is_Some (rHashHeader line) →
   rUnderscoreHeader1 line = false ∧ rUnderscoreHeader2 line = false)
  ∧ (rUnderscoreHeader1 line = true → rUnderscoreHeader2 line = false).
Proof.
  split.
  - intros [r ->]%rHashHeader_head. by split.
  - destruct line as [|c r]; [done|]. simpl.
    intros [Hc _]%andb_true_iff. apply Ascii.eqb_eq in Hc as ->. reflexivity.
Qed.

Lemma patterns_exclusive_witness :
  rUnderscoreHeader1 "## Usage" = false ∧ rUnderscoreHeader2 "## Usage" = false.
Proof.
  apply (patterns_exclusive "## Usage"). exists ("##", "Usage"). reflexivity.
Defined.

Lemma matchSpaceTitle_shape (s t : string) :
  matchSpaceTitle s = Some t →
  t ≠ EmptyString ∧ noNewline t ∧ (s = t ∨ s = String " "%char t).
Proof.
  assert (∀ u v, matchTitle u = Some v → v ≠ EmptyString ∧ noNewline v ∧ u = v) as Ht.
  { intros [|x u] v; [done|]. unfold matchTitle.
    destruct (anyByte isLF (String x u)) eqn:E; [done|]. by intros [= <-]. }
  destruct s as [|c r]; [done|]. unfold matchSpaceTitle.
  destruct (isSpace c) eqn:Hc.
  - destruct (matchTitle r) as [v|] eqn:Hr.
    + intros [= <-]. apply Ht in Hr as (? & ? & ->).
      unfold isSpace in Hc. apply Ascii.eqb_eq in Hc as ->. auto.
    + intros (? & ? & <-)%Ht. auto.
  - intros (? & ? & <-)%Ht. auto.
Qed.

(** X5.  A line the pattern of the [#] headings matches is its two
    submatches, with at most one space between them: the indent is a run of
    one or more [#] and nothing else, the title is not empty and has no
    newline. *)
Theorem rHashHeader_decompose (line m1 m2 : string) :
  rHashHeader line = Some (m1, m2) →
  (line = m1 +:+ m2 ∨ line = m1 +:+ " " +:+ m2)
  ∧ m1 ≠ EmptyString ∧ allBytes isHash m1 = true
  ∧ m2 ≠ EmptyString ∧ noNewline m2.
Proof.
  revert m1 m2. induction line as [|c r IH]; intros m1 m2; [done|]. simpl.
  destruct (isHash c) eqn:Hc; [|done].
  destruct (rHashHeader r) as [[i t]|] eqn:Hr.
  - intros [= <- <-]. destruct (IH i t eq_refl) as (Hline & Hi & Hall & Ht & Hnl).
    repeat split; try done.
    + rewrite !append_cons. destruct Hline as [-> | ->]; auto.
    + simpl. by rewrite Hc, Hall.
  - destruct (matchSpaceTitle r) as [t|] eqn:Ht; [|done].
    intros [= <- <-]. apply matchSpaceTitle_shape in Ht as (Hne & Hnl & Hr').
    repeat split; try done.
    + rewrite !append_cons, !append_nil_l. destruct Hr' as [-> | ->]; auto.
    + simpl. by rewrite Hc.
Qed.

Lemma rHashHeader_decompose_witness :
  "## Usage" = "##" +:+ "Usage" ∨ "## Usage" = "##" +:+ " " +:+ "Usage".
Proof. apply (rHashHeader_decompose "## Usage" "##" "Usage"). reflexivity. Defined.

(** ** The calls of a scan *)

Lemma classify_Atx (depth : Z) (line title : string) (indent : Z) :
  classify depth line = Atx title indent →
  ∃ m1, rHashHeader line = Some (m1, title) ∧ indent = len m1 - 1
        ∧ (0 < depth → len m1 ≤ depth).
Proof.
  unfold classify. destruct (rHashHeader line) as [[m1 m2]|].
  - destruct (Z.ltb_spec 0 depth), (Z.ltb_spec depth (len m1)); simpl;
      intros [= <- <-]; exists m1; repeat split; lia.
  - destruct (rUnderscoreHeader1 line); [done|].
    destruct (rUnderscoreHeader2 line); [|done].
    by destruct ((0 <? depth) && (depth <? 2)).
Qed.

Lemma classify_Setext (depth : Z) (line : string) (indent : Z) :
  classify depth line = Setext indent →
  indent = 0 ∨ (indent = 1 ∧ (depth ≤ 0 ∨ 2 ≤ depth)).
Proof.
  unfold classify. destruct (rHashHeader line) as [[m1 m2]|].
  - by destruct ((0 <? depth) && (depth <? len m1)).
  - destruct (rUnderscoreHeader1 line); [intros [= <-]; auto|].
    destruct (rUnderscoreHeader2 line); [|done].
    destruct (Z.ltb_spec 0 depth), (Z.ltb_spec depth 2); simpl;
      intros [= <-]; right; split; lia.
Qed.

(** X6.  Every call of [appendToC] has an indent that is not negative, so
    that [strings.Repeat] never panics, and that is below a positive maximal
    depth: no entry is indented by [maxDepth] levels or more. *)
Theorem headingCalls_indent (depth : Z) (prev : string) (lines : list string)
    (title : string) (indent : Z) :
  (title, indent) ∈ headingCalls depth prev lines →
  0 ≤ indent ∧ (0 < depth → indent < depth).
Proof.
  revert prev. induction lines as [|line lines IH]; intros prev; simpl.
  - by intros ?%elem_of_nil.
  - destruct (classify depth line) as [|t i|i|] eqn:Hc; [apply IH| | |apply IH].
    + intros [[= -> ->]|H]%elem_of_cons; [|by eapply IH].
      apply classify_Atx in Hc as (m1 & Hm & -> & Hd).
      apply rHashHeader_decompose in Hm as (_ & Hne & _).
      assert (1 ≤ len m1); [|lia].
      unfold len. destruct m1; [done|]. simpl. lia.
    + intros [[= -> ->]|H]%elem_of_cons; [|by eapply IH].
      apply classify_Setext in Hc. lia.
Qed.

Lemma headingCalls_indent_witness :
  headingCalls 2 EmptyString ["# A"; "## B"; "### C"] = [("A", 0); ("B", 1)]
  ∧ 0 ≤ 1 ∧ (0 < 2 → 1 < 2).
Proof.
  split; [reflexivity|].
  apply (headingCalls_indent 2 EmptyString ["# A"; "## B"; "### C"] "B" 1).
  vm_compute. apply list_elem_of_In. right. left. reflexivity.
Defined.

(** ** Underlines of [-] *)

Lemma rUnderscoreHeader2_classify (depth : Z) (line : string) :
  rUnderscoreHeader2 line = true →
  classify depth line =
  if (0 <? depth) && (depth <? 2) then Dropped else Setext 1.
Proof.
  intros H. unfold classify.
  assert (rHashHeader line = None) as ->.
  { destruct line as [|c r]; [done|]. simpl in H.
    apply andb_true_iff in H as [->%Ascii.eqb_eq _]. reflexivity. }
  assert (rUnderscoreHeader1 line = false) as ->; [|by rewrite H].
  destruct line as [|c r]; [done|]. simpl in H.
  apply andb_true_iff in H as [->%Ascii.eqb_eq _]. reflexivity.
Qed.

(** X7.  A line made of [-] only calls [appendToC] with the tracked previous
    line as the title and the indent 1, which is an entry one level in once
    the skip counter is used up; with the maximal depth 1 the line is left
    out and changes nothing. *)
Theorem underline2_entry (toLower : string → string) (depth : Z)
    (pre post : list string) (e : string) (st0 : tocState) :
  rUnderscoreHeader2 e = true →
  let st := scanLoop toLower depth pre st0 in
  (depth = 1 →
   scanLoop toLower depth (pre ++ e :: post) st0 =
   scanLoop toLower depth (pre ++ post) st0)
  ∧ (depth ≠ 1 →
     scanLoop toLower depth (pre ++ e :: post) st0 =
     scanLoop toLower depth post
       (setPreviousLine e (appendToC toLower (previousLine st) 1 st)))
  ∧ (depth ≠ 1 → skipHeaders st ≤ 0 →
     ∃ more,
       toc (scanLoop toLower depth (pre ++ e :: post) st0) =
       (toc st ++
        [ "   1. [" +:+ previousLine st +:+ "](#" +:+
          linkFor (seenHeaders st) (slugify toLower (previousLine st)) +:+ ")" ] ++
        more)%list).
Proof.
  intros He st.
  assert (scanLoop toLower depth (pre ++ e :: post) st0 =
          scanLoop toLower depth post (scanStep toLower depth st e)) as Hloop.
  { by rewrite scanLoop_app. }
  rewrite Hloop, scanStep_classify, (rUnderscoreHeader2_classify depth e He).
  split; [|split].
  - intros ->. simpl. by rewrite scanLoop_app.
  - intros Hd. assert ((0 <? depth) && (depth <? 2) = false) as ->; [|done].
    destruct (Z.ltb_spec 0 depth), (Z.ltb_spec depth 2); simpl; try done. lia.
  - intros Hd Hskip.
    assert ((0 <? depth) && (depth <? 2) = false) as ->.
    { destruct (Z.ltb_spec 0 depth), (Z.ltb_spec depth 2); simpl; try done. lia. }
    destruct (scanLoop_toc_prefix toLower depth post
                (setPreviousLine e (appendToC toLower (previousLine st) 1 st)))
      as [more ->].
    exists more. rewrite appendToC_emit by done. cbn [toc setPreviousLine].
    by rewrite <- app_assoc.
Qed.

Lemma underline2_entry_witness :
  toc (scanLoop noUnicode 1 (["Title"] ++ "---" :: ["# A"]) (initState 0)) =
    ["Table of Contents"; "================="; "1. [A](#a)"]
  ∧ toc (scanLoop noUnicode 2 (["Title"] ++ "---" :: ["# A"]) (initState 0)) =
    ["Table of Contents"; "================="; "   1. [Title](#title)"; "1. [A](#a)"].
Proof.
  destruct (underline2_entry noUnicode 1 ["Title"] ["# A"] "---" (initState 0) eq_refl)
    as (E1 & _).
  destruct (underline2_entry noUnicode 2 ["Title"] ["# A"] "---" (initState 0) eq_refl)
    as (_ & E2 & _).
  rewrite E1, E2 by done. split; reflexivity.
Defined.

(** ** Arguments that are not positive *)

Lemma classify_nonpositive (depth : Z) (line : string) :
  depth ≤ 0 → classify depth line = classify 0 line.
Proof.
  intros H. unfold classify. by rewrite (proj2 (Z.ltb_ge 0 depth) H).
Qed.

Lemma headingCalls_nonpositive (depth : Z) (prev : string) (lines : list string) :
  depth ≤ 0 → headingCalls depth prev lines = headingCalls 0 prev lines.
Proof.
  intros H. revert prev. induction lines as [|line lines IH]; intros prev; [done|].
  simpl. rewrite (classify_nonpositive depth line H).
  destruct (classify 0 line); by rewrite ?IH.
Qed.

(** X8.  A maximal depth that is not positive filters nothing and a skip
    count that is not positive skips nothing: negative arguments give what 0
    gives. *)
Theorem nonpositive_arguments (toLower : string → string) (d : string)
    (depth skip : Z) :
  depth ≤ 0 → skip ≤ 0 →
  BuildMarkdownToc toLower d depth skip = BuildMarkdownToc toLower d 0 0.
Proof.
  intros Hdepth Hskip. destruct (Scanner d) as [lines [e|]] eqn:Hd.
  - by rewrite !(BuildMarkdownToc_err toLower d _ _ lines e Hd).
  - rewrite !(BuildMarkdownToc_ok toLower d _ _ lines Hd). f_equal.
    rewrite (headingCalls_nonpositive depth _ _ Hdepth).
    change (toc (appendAll toLower (headingCalls 0 EmptyString lines) (initState skip)))
      with (toc (setSkipHeaders 0
                   (appendAll toLower (headingCalls 0 EmptyString lines)
                      (initState skip)))).
    rewrite appendAll_skip.
    change (skipHeaders (initState skip)) with skip.
    replace (Z.to_nat skip) with 0%nat by lia. by rewrite drop_0.
Qed.

Lemma nonpositive_arguments_witness :
  BuildMarkdownToc noUnicode ("# A" +:+ newline +:+ "##### B" +:+ newline) (-1) (-7) =
  BuildMarkdownToc noUnicode ("# A" +:+ newline +:+ "##### B" +:+ newline) 0 0.
Proof. apply (nonpositive_arguments noUnicode); lia. Defined.

(** ** The shape of the result *)

(** X9.  Without a scan error the result is the two lines of the banner and
    one entry for each call of [appendToC] after the skipped ones, as many
    as there are calls less the skip count; a document without a heading, the
    empty one included, gives the banner alone. *)
Theorem BuildMarkdownToc_shape (toLower : string → string) (d : string)
    (depth skip : Z) (lines : list string) :
  Scanner d = (lines, None) →
  ∃ entries,
    BuildMarkdownToc toLower d depth skip =
      ("Table of Contents" :: "=================" :: entries, None)
    ∧ length entries =
      (length (headingCalls depth EmptyString lines) - Z.to_nat skip)%nat.
Proof.
  intros Hd. rewrite (BuildMarkdownToc_ok toLower d depth skip lines Hd).
  change (toc (appendAll toLower (headingCalls depth EmptyString lines) (initState skip)))
    with (toc (setSkipHeaders 0
                 (appendAll toLower (headingCalls depth EmptyString lines)
                    (initState skip)))).
  rewrite appendAll_skip.
  change (setSkipHeaders 0 (initState skip)) with (initState 0).
  change (skipHeaders (initState skip)) with skip.
  destruct (appendAll_emits toLower
              (drop (Z.to_nat skip) (headingCalls depth EmptyString lines))
              (initState 0)) as (entries & Hlen & Htoc & _); [done|].
  exists entries. rewrite Htoc. split; [done|]. by rewrite Hlen, length_drop.
Qed.

Lemma BuildMarkdownToc_shape_witness :
  ∃ entries,
    BuildMarkdownToc noUnicode EmptyString 3 0 =
      ("Table of Contents" :: "=================" :: entries, None)
    ∧ length entries = 0%nat.
Proof. apply (BuildMarkdownToc_shape noUnicode EmptyString 3 0 []). reflexivity. Defined.

(** ** The anchors of a scan *)

Lemma occurrences_snoc (toLower : string → string) (b : string)
    (calls : list (string * Z)) (call : string * Z) :
  occurrences toLower b (calls ++ [call]) =
  (occurrences toLower b calls + if decide (slugify toLower call.1 = b) then 1 else 0)%nat.
Proof.
  unfold occurrences. rewrite filter_app, length_app. f_equal.
  rewrite filter_cons, filter_nil. by case_decide.
Qed.

Lemma occurrences_le (toLower : string → string) (b : string)
    (calls : list (string * Z)) :
  (occurrences toLower b calls ≤ length calls)%nat.
Proof. apply length_filter. Qed.

Lemma appendAll_snoc (toLower : string → string) (calls : list (string * Z))
    (t : string) (i : Z) (st : tocState) :
  appendAll toLower (calls ++ [(t, i)]) st =
  appendToC toLower t i (appendAll toLower calls st).
Proof. apply appendAll_app. Qed.

Lemma appendAll_skip_0 (toLower : string → string) (calls : list (string * Z)) :
  skipHeaders (appendAll toLower calls (initState 0)) ≤ 0.
Proof.
  destruct (appendAll_emits toLower calls (initState 0)) as (? & _ & _ & ->); done.
Qed.

(** The registry holds, for each slug, the number of the calls that had
    it. *)
Lemma registry_counts (toLower : string → string) (calls : list (string * Z))
    (b : string) :
  Z.of_nat (length calls) < 2 ^ 63 →
  seenHeaders (appendAll toLower calls (initState 0)) !! b =
  match occurrences toLower b calls with
  | O => None
  | S n => Some (Z.of_nat (S n))
  end.
Proof.
  induction calls as [|[t i] calls IH] using rev_ind; intros Hlen; [done|].
  rewrite length_app in Hlen. simpl in Hlen.
  rewrite appendAll_snoc, occurrences_snoc.
  rewrite appendToC_emit by apply appendAll_skip_0. cbn [seenHeaders fst].
  pose proof (occurrences_le toLower (slugify toLower t) calls) as Hle.
  case_decide as Hb.
  - subst b. rewrite lookup_insert_eq. unfold countFor. rewrite IH by lia.
    destruct (occurrences toLower (slugify toLower t) calls) as [|n] eqn:Ho; [done|].
    replace (S n + 1)%nat with (S (S n)) by lia. f_equal.
    unfold wrap64. rewrite Z.mod_small; lia.
  - rewrite lookup_insert_ne by done. rewrite IH by lia.
    by rewrite Nat.add_0_r.
Qed.

Lemma linkFor_anchor (toLower : string → string) (calls : list (string * Z))
    (b : string) :
  Z.of_nat (length calls) + 1 < 2 ^ 63 →
  linkFor (seenHeaders (appendAll toLower calls (initState 0))) b =
  anchor b (occurrences toLower b calls).
Proof.
  intros Hlen. unfold linkFor. rewrite registry_counts by lia.
  pose proof (occurrences_le toLower b calls) as Hle.
  destruct (occurrences toLower b calls) as [|n]; [done|].
  unfold anchor. do 3 f_equal. unfold wrap64.
  rewrite (Z.mod_small (Z.of_nat (S n) + 1 + 2 ^ 63)) by lia.
  rewrite Z.mod_small; lia.
Qed.

Lemma appendAll_numbered (toLower : string → string)
    (before calls : list (string * Z)) :
  Z.of_nat (length (before ++ calls)) < 2 ^ 63 →
  toc (appendAll toLower (before ++ calls) (initState 0)) =
  (toc (appendAll toLower before (initState 0)) ++ numbered toLower before calls)%list.
Proof.
  revert before. induction calls as [|[t i] calls IH]; intros before Hlen.
  - by rewrite !app_nil_r.
  - change (before ++ (t, i) :: calls)%list
      with (before ++ [(t, i)] ++ calls)%list in *.
    rewrite app_assoc in *. rewrite IH by done.
    rewrite appendAll_snoc, appendToC_emit by apply appendAll_skip_0.
    cbn [toc numbered fst snd]. rewrite linkFor_anchor.
    + by rewrite <- app_assoc.
    + rewrite !length_app in Hlen. simpl in Hlen. lia.
Qed.

Lemma BuildMarkdownToc_numbered_calls (toLower : string → string) (d : string)
    (depth skip : Z) (lines : list string) :
  Scanner d = (lines, None) →
  Z.of_nat (length (headingCalls depth EmptyString lines)) < 2 ^ 63 →
  BuildMarkdownToc toLower d depth skip =
  ((tocBanner ++
    numbered toLower []
      (drop (Z.to_nat skip) (headingCalls depth EmptyString lines)))%list,
   None).
Proof.
  intros Hd Hlen. rewrite (BuildMarkdownToc_ok toLower d depth skip lines Hd).
  change (toc (appendAll toLower (headingCalls depth EmptyString lines) (initState skip)))
    with (toc (setSkipHeaders 0
                 (appendAll toLower (headingCalls depth EmptyString lines)
                    (initState skip)))).
  rewrite appendAll_skip.
  change (setSkipHeaders 0 (initState skip)) with (initState 0).
  change (skipHeaders (initState skip)) with skip.
  pose proof (appendAll_numbered toLower []
                (drop (Z.to_nat skip) (headingCalls depth EmptyString lines))) as E.
  cbn [app] in E. rewrite E; [done|]. rewrite length_drop. lia.
Qed.

(** X10.  The anchor of an entry is the slug of its title when no earlier
    entry of the call has that slug, and the slug with the suffix [-n] when
    [n] earlier entries have it: without a scan error and with fewer than
    2^63 headings, the result is the banner and the entries of the calls
    after the skipped ones, numbered in this way. *)
Theorem BuildMarkdownToc_numbered (toLower : string → string) (d : string)
    (depth skip : Z) (lines : list string) :
  Scanner d = (lines, None) →
  Z.of_nat (length (headingCalls depth EmptyString lines)) < 2 ^ 63 →
  BuildMarkdownToc toLower d depth skip =
  ((tocBanner ++
    numbered toLower []
      (drop (Z.to_nat skip) (headingCalls depth EmptyString lines)))%list,
   None).
Proof. apply BuildMarkdownToc_numbered_calls. Qed.

Lemma BuildMarkdownToc_numbered_witness :
  BuildMarkdownToc noUnicode
    ("# Setup" +:+ newline +:+ "## Notes" +:+ newline +:+ "# Usage" +:+ newline +:+
     "## Notes" +:+ newline) 0 0 =
  ([ "Table of Contents"; "=================";
     "1. [Setup](#setup)"; "   1. [Notes](#notes)";
     "1. [Usage](#usage)"; "   1. [Notes](#notes-1)" ], None).
Proof.
  apply (BuildMarkdownToc_numbered noUnicode _ 0 0
           ["# Setup"; "## Notes"; "# Usage"; "## Notes"]).
  - reflexivity.
  - vm_compute. reflexivity.
Defined.

(** *** Two headings of one slug *)

Lemma formatInt_inj (n m : Z) : formatInt n = formatInt m → n = m.
Proof.
  unfold formatInt. intros H. apply DecimalZ.to_int_inj.
  assert (∀ z, NilZero.int_of_string (NilZero.string_of_int (Z.to_int z)) =
               Some (Z.to_int z)) as Hisi.
  { intros z. apply NilZero.isi.
    - destruct z as [|p|p]; [done| |done]. simpl. intros [= Hp].
      by apply DecimalPos.Unsigned.to_uint_nonnil in Hp.
    - destruct z as [|p|p]; [done|done|]. simpl. intros [= Hp].
      by apply DecimalPos.Unsigned.to_uint_nonnil in Hp. }
  apply (inj Some). by rewrite <- !Hisi, H.
Qed.

Lemma anchor_inj (b : string) (n m : nat) : anchor b n = anchor b m → n = m.
Proof.
  assert (∀ k, b ≠ b +:+ "-" +:+ formatInt (Z.of_nat (S k))) as Hne.
  { intros k H. apply (f_equal String.length) in H.
    rewrite length_append in H. simpl in H. lia. }
  destruct n as [|n], m as [|m]; simpl; intros H.
  - done.
  - by apply Hne in H.
  - symmetry in H. by apply Hne in H.
  - apply (inj (String.app b)) in H. apply (inj (String.app "-")) in H.
    apply formatInt_inj in H. lia.
Qed.

Lemma numbered_two (toLower : string → string)
    (A B C : list (string * Z)) (t1 t2 : string) (i1 i2 : Z) :
  slugify toLower t1 = slugify toLower t2 →
  ∃ a1 a2 eA eB eC,
    numbered toLower [] (A ++ (t1, i1) :: B ++ (t2, i2) :: C) =
    (eA ++ tocLine i1 t1 a1 :: eB ++ tocLine i2 t2 a2 :: eC)%list
    ∧ length eA = length A ∧ length eB = length B ∧ a1 ≠ a2.
Proof.
  intros Hslug.
  assert (∀ before calls1 calls2,
            numbered toLower before (calls1 ++ calls2) =
            (numbered toLower before calls1 ++
             numbered toLower (before ++ calls1) calls2)%list) as Happ.
  { intros before calls1. revert before.
    induction calls1 as [|c calls1 IH]; intros before calls2.
    - by rewrite app_nil_r.
    - simpl. rewrite IH. by rewrite <- app_assoc. }
  assert (∀ before calls, length (numbered toLower before calls) = length calls) as Hlen.
  { intros before calls. revert before.
    induction calls as [|c calls IH]; intros before; [done|]. simpl. by rewrite IH. }
  exists (anchor (slugify toLower t1) (occurrences toLower (slugify toLower t1) A)),
    (anchor (slugify toLower t2)
       (occurrences toLower (slugify toLower t2) ((A ++ [(t1, i1)]) ++ B))),
    (numbered toLower [] A),
    (numbered toLower (A ++ [(t1, i1)]) B),
    (numbered toLower (((A ++ [(t1, i1)]) ++ B) ++ [(t2, i2)]) C).
  split; [|split; [|split]].
  - rewrite Happ. cbn [numbered fst snd app]. rewrite Happ.
    cbn [numbered fst snd app]. reflexivity.
  - apply Hlen.
  - apply Hlen.
  - rewrite <- Hslug. intros H%anchor_inj.
    unfold occurrences in H. rewrite !filter_app, !length_app in H.
    rewrite filter_cons, filter_nil in H. cbn [fst] in H.
    destruct (decide (slugify toLower t1 = slugify toLower t1)); [|done].
    simpl in H. lia.
Qed.

(** X11.  Two entries of one call whose titles have the same slug never get
    the same anchor (fewer than 2^63 headings). *)
Theorem same_slug_distinct_anchors (toLower : string → string) (d : string)
    (depth skip : Z) (lines : list string)
    (A B C : list (string * Z)) (t1 t2 : string) (i1 i2 : Z) :
  Scanner d = (lines, None) →
  Z.of_nat (length (headingCalls depth EmptyString lines)) < 2 ^ 63 →
  drop (Z.to_nat skip) (headingCalls depth EmptyString lines) =
    (A ++ (t1, i1) :: B ++ (t2, i2) :: C)%list →
  slugify toLower t1 = slugify toLower t2 →
  ∃ a1 a2 eA eB eC,
    BuildMarkdownToc toLower d depth skip =
      ((tocBanner ++ eA ++ tocLine i1 t1 a1 :: eB ++ tocLine i2 t2 a2 :: eC)%list,
       None)
    ∧ length eA = length A ∧ length eB = length B ∧ a1 ≠ a2.
Proof.
  intros Hd Hlen Hcalls Hslug.
  rewrite (BuildMarkdownToc_numbered_calls toLower d depth skip lines Hd Hlen), Hcalls.
  destruct (numbered_two toLower A B C t1 t2 i1 i2 Hslug)
    as (a1 & a2 & eA & eB & eC & -> & HA & HB & Hne).
  by exists a1, a2, eA, eB, eC.
Qed.

Lemma same_slug_distinct_anchors_witness :
  ∃ a1 a2 eA eB eC,
    BuildMarkdownToc noUnicode
      ("# Notes" +:+ newline +:+ "# Usage" +:+ newline +:+ "## NOTES!" +:+ newline) 0 0 =
      ((tocBanner ++ eA ++ tocLine 0 "Notes" a1 :: eB ++ tocLine 1 "NOTES!" a2 :: eC)%list,
       None)
    ∧ length eA = 0%nat ∧ length eB = 1%nat ∧ a1 ≠ a2.
Proof.
  apply (same_slug_distinct_anchors noUnicode _ 0 0
           ["# Notes"; "# Usage"; "## NOTES!"] [] [("Usage", 0)] []);
    [reflexivity | vm_compute; reflexivity | reflexivity | reflexivity].
Defined.

(** ** End-of-line markers *)

Lemma noNewline_append (s t : string) :
  noNewline s → noNewline t → noNewline (s +:+ t).
Proof. unfold noNewline. intros Hs Ht. by rewrite anyByte_append, Hs, Ht. Qed.

Lemma dropCR_append_CR (line : string) :
  dropCR (line +:+ String CR EmptyString) = line.
Proof.
  induction line as [|c line IH]; [done|].
  rewrite append_cons.
  destruct (line +:+ String CR EmptyString) eqn:E.
  - by destruct line.
  - change (dropCR (String c (String a s))) with (String c (dropCR (String a s))).
    by rewrite IH.
Qed.

Lemma rawLines_last (line : string) :
  line ≠ EmptyString → noNewline line → rawLines line = [line].
Proof.
  unfold noNewline. induction line as [|c line IH]; [done|]. intros _.
  intros [Hc Hl]%orb_false_elim.
  change (rawLines (String c line)) with
    (if isLF c then EmptyString :: rawLines line
     else match rawLines line with
          | [] => [String c EmptyString]
          | l :: ls => String c l :: ls
          end).
  rewrite Hc. destruct line as [|c' line]; [done|]. by rewrite IH.
Qed.

Lemma scanTokens_app (raw raw' : list string) (ts : list string) :
  scanTokens raw = (ts, None) →
  scanTokens (raw ++ raw') = ((ts ++ (scanTokens raw').1)%list, (scanTokens raw').2).
Proof.
  revert ts. induction raw as [|l raw IH]; intros ts.
  - simpl. intros [= <-]. by destruct (scanTokens raw').
  - simpl. destruct (MaxScanTokenSize <=? len l); [done|].
    destruct (scanTokens raw) as [ts' e] eqn:E. intros [= <- ->].
    by rewrite (IH ts' eq_refl).
Qed.

Lemma rawLines_unlines_app (lines : list string) (rest : string) :
  Forall noNewline lines →
  rawLines (unlines lines +:+ rest) = (lines ++ rawLines rest)%list.
Proof.
  induction lines as [|l lines IH]; [done|].
  intros [Hl Hls]%Forall_cons. simpl unlines.
  rewrite !append_assoc, rawLines_line by done. by rewrite IH.
Qed.

Lemma scanTokens_scannable (lines : list string) :
  Forall scannable lines → scanTokens lines = (lines, None).
Proof.
  induction lines as [|l lines IH]; [done|].
  intros [(Hnl & Hcr & Hlen) Hrest]%Forall_cons. simpl.
  rewrite (proj2 (Z.leb_gt _ _) Hlen), IH by done. by rewrite dropCR_id.
Qed.

Lemma Scanner_unlinesCRLF (lines : list string) :
  Forall (λ line, scannable line ∧ len line + 1 < MaxScanTokenSize) lines →
  Scanner (unlinesCRLF lines) = (lines, None).
Proof.
  unfold Scanner. induction lines as [|l lines IH]; [done|].
  intros [[(Hnl & Hcr & _) Hlen] Hrest]%Forall_cons. simpl unlinesCRLF.
  change (l +:+ crlf +:+ unlinesCRLF lines)
    with (l +:+ (String CR EmptyString +:+ newline) +:+ unlinesCRLF lines).
  rewrite (append_assoc (String CR EmptyString)), <- (append_assoc l).
  rewrite rawLines_line by (apply noNewline_append; done).
  simpl scanTokens.
  assert (len (l +:+ String CR EmptyString) = len l + 1) as Hl.
  { unfold len. rewrite length_append. simpl. lia. }
  rewrite (proj2 (Z.leb_gt _ _)) by lia.
  by rewrite IH, dropCR_append_CR.
Qed.

Lemma Scanner_unterminated (lines : list string) (line : string) :
  Forall scannable lines → scannable line → line ≠ EmptyString →
  Scanner (unlines lines +:+ line) = ((lines ++ [line])%list, None).
Proof.
  intros Hls Hl Hne. unfold Scanner.
  rewrite rawLines_unlines_app by (eapply Forall_impl; [done|]; by intros ? (? & _)).
  rewrite rawLines_last by (done || apply Hl).
  rewrite (scanTokens_app lines [line] lines) by by apply scanTokens_scannable.
  by rewrite (scanTokens_scannable [line]) by by constructor.
Qed.

(** X12.  The end-of-line markers do not matter for lines the scanner gives
    back as they are.  Let each of the [lines] hold no newline, not end in a
    carriage return, and be shorter than 65535 bytes, so that the line and a
    carriage return fit the buffer of the scanner.  Then the document in
    which each line is followed by a carriage return and a newline gives the
    result of the document in which each is followed by a newline alone.
    And when a last [line], not empty, with no newline in it, not ending in a
    carriage return and shorter than 65536 bytes, comes after them without
    its newline, the result is that of the document in which it has one.
    (A line that itself ends in a carriage return is outside the statement:
    the scanner takes this byte for a part of the marker and drops it.) *)
Theorem end_of_line_markers (toLower : string → string) (depth skip : Z)
    (lines : list string) (line : string) :
  Forall (λ line, scannable line ∧ len line + 1 < MaxScanTokenSize) lines →
  scannable line → line ≠ EmptyString →
  BuildMarkdownToc toLower (unlinesCRLF lines) depth skip =
    BuildMarkdownToc toLower (unlines lines) depth skip
  ∧ BuildMarkdownToc toLower (unlines lines +:+ line) depth skip =
    BuildMarkdownToc toLower (unlines (lines ++ [line])) depth skip.
Proof.
  intros Hls Hl Hne.
  assert (Forall scannable lines) as Hls'.
  { eapply Forall_impl; [done|]. by intros ? [? _]. }
  split.
  - by rewrite (BuildMarkdownToc_ok toLower _ depth skip lines (Scanner_unlinesCRLF lines Hls)),
      (BuildMarkdownToc_ok toLower _ depth skip lines (Scanner_unlines lines Hls')).
  - rewrite (BuildMarkdownToc_ok toLower _ depth skip _
               (Scanner_unterminated lines line Hls' Hl Hne)).
    rewrite (BuildMarkdownToc_ok toLower _ depth skip (lines ++ [line])); [done|].
    apply Scanner_unlines. apply Forall_app. split; [done|]. by constructor.
Qed.

Lemma end_of_line_markers_witness :
  BuildMarkdownToc noUnicode
    ("# A" +:+ crlf +:+ "Title" +:+ crlf +:+ "===" +:+ crlf) 0 0 =
  BuildMarkdownToc noUnicode
    ("# A" +:+ newline +:+ "Title" +:+ newline +:+ "===" +:+ newline) 0 0.
Proof.
  apply (end_of_line_markers noUnicode 0 0 ["# A"; "Title"; "==="] "x").
  - repeat (constructor; [by vm_compute|]). constructor.
  - by vm_compute.
  - discriminate.
Defined.

(** ** The table renderer, any number of rows *)

Lemma rows_join (p : string) (data : list (list string)) :
  p +:+ fold_right
          (λ d rest, newline +:+ tableRow (map MarkdownTableCellEscape d) +:+ rest)
          EmptyString data =
  Join (p :: map (λ d, tableRow (map MarkdownTableCellEscape d)) data) newline.
Proof.
  unfold Join. revert p. induction data as [|d data IH]; intros p.
  - simpl. by rewrite append_nil_r.
  - simpl fold_right. rewrite IH. reflexivity.
Qed.

(** X13.  Whatever the headings, the rule tokens and the rows are, in
    number and in content, the table is the row of the headings, the row of
    the rule tokens and one row for each data row in the order given, with a
    newline between two rows and none at the end; a row is a pipe followed
    by each cell between a space and a space and a pipe.  A row that is
    shorter or longer than the headings is written as it is. *)
Theorem MarkdownTable_join (headings lengths : list string)
    (data : list (list string)) :
  MarkdownTable headings lengths data =
  Join (tableRow headings :: tableRow lengths ::
        map (λ d, tableRow (map MarkdownTableCellEscape d)) data) newline
  ∧ ∀ (cells : list string) (h : string),
      tableRow [] = "|" ∧ tableRow (cells ++ [h]) = tableRow cells +:+ " " +:+ h +:+ " |".
Proof.
  split.
  - rewrite MarkdownTable_rows, rows_join. reflexivity.
  - intros cells h. split; [done|]. by rewrite tableRow_snoc.
Qed.

(** X14.  With no newline in the headings and in the rule tokens, a table
    of [n] data rows has [n + 2] text lines, whatever newlines the data cells
    hold: each data row is one line. *)
Theorem MarkdownTable_line_count (headings lengths : list string)
    (data : list (list string)) :
  Forall noNewline headings → Forall noNewline lengths →
  length (textLines (MarkdownTable headings lengths data)) = (length data + 2)%nat
  ∧ ∀ (i : nat) (d : list string),
      data !! i = Some d →
      textLines (MarkdownTable headings lengths data) !! (i + 2)%nat =
      Some (tableRow (map MarkdownTableCellEscape d)).
Proof.
  intros Hh Hl. rewrite MarkdownTable_textLines by done. split.
  - simpl. rewrite length_map. lia.
  - intros i d Hd. replace (i + 2)%nat with (S (S i)) by lia. simpl.
    revert i Hd. induction data as [|x data IH]; intros [|i] Hd; simplify_eq/=; eauto.
Qed.

Lemma MarkdownTable_line_count_witness :
  length (textLines (MarkdownTable ["Name"] ["----"]
            [["a" +:+ newline +:+ "b"]; ["c" +:+ crlf]; []])) = 5%nat.
Proof.
  apply (MarkdownTable_line_count ["Name"] ["----"]
           [["a" +:+ newline +:+ "b"]; ["c" +:+ crlf]; []]);
    by repeat constructor.
Defined.

(** X15.  Escaping a cell twice is escaping it once. *)
Theorem MarkdownTableCellEscape_idempotent (cellText : string) :
  MarkdownTableCellEscape (MarkdownTableCellEscape cellText) =
  MarkdownTableCellEscape cellText.
Proof.
  apply MarkdownTableCellEscape_id, MarkdownTableCellEscape_no_newline.
Qed.

(** ** The rows of the extraction functions *)

Section MoreRows.

Context {A : Type} (name : A → string) (obj : A → TfTableObject)
  (row : TfTableObject → list string).

Lemma collect_snoc (items : list A) (x : A) :
  collect name obj (items ++ [x]) = <[name x := obj x]> (collect name obj items).
Proof. unfold collect. by rewrite fold_left_app. Qed.

Lemma collect_lookup_NoDup (items : list A) (item : A) :
  NoDup (name <$> items) → item ∈ items →
  collect name obj items !! name item = Some (obj item).
Proof.
  intros Hnd Hin. unfold collect.
  rewrite (collect_from_list_to_map name obj items ∅ Hnd).
  rewrite (right_id_L ∅ (∪)). apply elem_of_list_to_map_1.
  - by rewrite <- list_fmap_compose.
  - apply list_elem_of_fmap. by exists item.
Qed.

Lemma sortedRows_length (objs : gmap string TfTableObject) :
  length (sortedRows row objs) = size objs.
Proof.
  unfold sortedRows. rewrite length_fmap, getSortedKeys_Permutation.
  by rewrite length_fmap, length_map_to_list.
Qed.

Lemma getSortedKeys_collect (items : list A) :
  getSortedKeys (collect name obj items) ≡ₚ remove_dups (name <$> items).
Proof.
  apply NoDup_Permutation.
  - apply getSortedKeys_NoDup.
  - apply NoDup_remove_dups.
  - intros k. by rewrite getSortedKeys_elem_of, collect_dom, elem_of_remove_dups.
Qed.

Lemma sortedRows_collect_length (items : list A) :
  length (sortedRows row (collect name obj items)) =
  length (remove_dups (name <$> items)).
Proof.
  unfold sortedRows. by rewrite length_fmap, getSortedKeys_collect.
Qed.

Lemma sortedRows_oneRowEach (items : list A) :
  NoDup (name <$> items) →
  oneRowEach (λ item, row (obj item)) items (sortedRows row (collect name obj items)).
Proof.
  intros Hnd. split.
  - rewrite sortedRows_collect_length.
    assert (remove_dups (name <$> items) ≡ₚ name <$> items) as ->.
    { apply NoDup_Permutation; [apply NoDup_remove_dups|done|].
      intros k. apply elem_of_remove_dups. }
    by rewrite length_fmap.
  - intros item Hin. unfold sortedRows. apply list_elem_of_fmap.
    exists (name item). split.
    + by rewrite (lookup_total_correct _ _ _ (collect_lookup_NoDup items item Hnd Hin)).
    + apply getSortedKeys_elem_of, collect_dom, list_elem_of_fmap. by exists item.
Qed.

End MoreRows.

(** Rows that are made alike from items of the same names are the same
    rows. *)
Lemma sortedRows_ext {A B : Type} (name1 : A → string) (name2 : B → string)
    (obj1 : A → TfTableObject) (obj2 : B → TfTableObject)
    (row : TfTableObject → list string) (items1 : list A) (items2 : list B) :
  Forall2 (λ x y, name1 x = name2 y ∧ row (obj1 x) = row (obj2 y)) items1 items2 →
  sortedRows row (collect name1 obj1 items1) =
  sortedRows row (collect name2 obj2 items2).
Proof.
  intros H.
  assert (∀ m1 m2 : gmap string TfTableObject,
            dom m1 = dom m2 → (∀ k, row (m1 !!! k) = row (m2 !!! k)) →
            dom (fold_left (insertItem name1 obj1) items1 m1) =
              dom (fold_left (insertItem name2 obj2) items2 m2)
            ∧ ∀ k, row (fold_left (insertItem name1 obj1) items1 m1 !!! k) =
                   row (fold_left (insertItem name2 obj2) items2 m2 !!! k)) as Hfold.
  { induction H as [|x y items1 items2 [Hn Hr] _ IH]; intros m1 m2 Hdom Hrow; [done|].
    simpl. apply IH.
    - unfold insertItem. by rewrite !dom_insert_L, Hn, Hdom.
    - intros k. unfold insertItem. rewrite Hn.
      destruct (decide (name2 y = k)) as [->|Hk].
      + by rewrite !lookup_total_insert_eq.
      + by rewrite !lookup_total_insert_ne. }
  destruct (Hfold ∅ ∅) as [Hdom Hrow]; [done|done|].
  unfold sortedRows, collect. rewrite (getSortedKeys_dom _ _ Hdom).
  apply list_fmap_ext. intros _ k _. apply Hrow.
Qed.

(** X16.  [getSortedKeys] returns the keys of the map, all of them and each
    once, in ascending order; whatever order the keys are collected in gives
    the same list. *)
Theorem getSortedKeys_spec (objs : gmap string TfTableObject) :
  StronglySorted String.le (getSortedKeys objs)
  ∧ NoDup (getSortedKeys objs)
  ∧ (∀ k, k ∈ getSortedKeys objs ↔ is_Some (objs !! k))
  ∧ length (getSortedKeys objs) = size objs
  ∧ ∀ keys, keys ≡ₚ (map_to_list objs).*1 → sortStrings keys = getSortedKeys objs.
Proof.
  split; [apply getSortedKeys_sorted|]. split; [apply getSortedKeys_NoDup|].
  split; [|split].
  - intros k. by rewrite getSortedKeys_elem_of, elem_of_dom.
  - by rewrite getSortedKeys_Permutation, length_fmap, length_map_to_list.
  - apply getSortedKeys_any_order.
Qed.

Lemma getSortedKeys_spec_witness :
  sortStrings ["b"; "c"; "a"] =
  getSortedKeys (<["c" := inhabitant]> (<["a" := inhabitant]> (<["b" := inhabitant]> ∅))).
Proof.
  apply (getSortedKeys_spec
           (<["c" := inhabitant]> (<["a" := inhabitant]> (<["b" := inhabitant]> ∅)))).
  vm_compute. etrans; [apply perm_swap|]. apply perm_skip, perm_swap.
Defined.

(** X17.  When no two items have the same name each item has its row:
    every function gives as many rows as there are items, and the row of an
    item holds its own fields and its own code position. *)
Theorem one_row_each (module : tfconfig.Module_) (baseUrl modulePath : string) :
  (NoDup (tfconfig.Var.Name <$> tfconfig.Variables module) →
   oneRowEach
     (λ item, [ tfconfig.Var.Name item; tfconfig.Var.Type_ item;
                tfconfig.Var.Description item;
                codePosition (tfconfig.Var.Pos item) baseUrl modulePath ])
     (tfconfig.Variables module) (GetVarsData module baseUrl modulePath))
  ∧ (NoDup (tfconfig.Output.Name <$> tfconfig.Outputs module) →
     oneRowEach
       (λ item, [ tfconfig.Output.Name item; tfconfig.Output.Description item;
                  codePosition (tfconfig.Output.Pos item) baseUrl modulePath ])
       (tfconfig.Outputs module) (GetOutputsData module baseUrl modulePath))
  ∧ (NoDup (tfconfig.Resource.Name <$> tfconfig.ManagedResources module) →
     oneRowEach
       (λ item, [ tfconfig.Resource.Name item; tfconfig.Resource.Type_ item;
                  codePosition (tfconfig.Resource.Pos item) baseUrl modulePath ])
       (tfconfig.ManagedResources module)
       (GetManagedResourcesData module baseUrl modulePath))
  ∧ (NoDup (tfconfig.Resource.Name <$> tfconfig.DataResources module) →
     oneRowEach
       (λ item, [ tfconfig.Resource.Name item; tfconfig.Resource.Type_ item;
                  codePosition (tfconfig.Resource.Pos item) baseUrl modulePath ])
       (tfconfig.DataResources module)
       (GetDataSourcesData module baseUrl modulePath))
  ∧ (NoDup (tfconfig.ModuleCall.Name <$> tfconfig.ModuleCalls module) →
     oneRowEach
       (λ item, [ tfconfig.ModuleCall.Name item; tfconfig.ModuleCall.Source item;
                  codePosition (tfconfig.ModuleCall.Pos item) baseUrl modulePath ])
       (tfconfig.ModuleCalls module) (GetModulesData module baseUrl modulePath)).
Proof.
  split; [|split; [|split; [|split]]]; intros Hnd.
  - apply (sortedRows_oneRowEach tfconfig.Var.Name (varsObject baseUrl modulePath)
             (λ o, [Name o; Type_ o; Description o; Location o]) _ Hnd).
  - apply (sortedRows_oneRowEach tfconfig.Output.Name (outputsObject baseUrl modulePath)
             (λ o, [Name o; Description o; Location o]) _ Hnd).
  - apply (sortedRows_oneRowEach tfconfig.Resource.Name (resourceObject baseUrl modulePath)
             (λ o, [Name o; Type_ o; Location o]) _ Hnd).
  - apply (sortedRows_oneRowEach tfconfig.Resource.Name (resourceObject baseUrl modulePath)
             (λ o, [Name o; Type_ o; Location o]) _ Hnd).
  - apply (sortedRows_oneRowEach tfconfig.ModuleCall.Name
             (moduleCallObject baseUrl modulePath)
             (λ o, [Name o; Type_ o; Location o]) _ Hnd).
Qed.

Lemma one_row_each_witness :
  length (GetVarsData (exampleModule ["zeta"; "alpha"; "mu"]) "u" "m") = 3%nat.
Proof.
  destruct (one_row_each (exampleModule ["zeta"; "alpha"; "mu"]) "u" "m") as (H & _).
  apply H. vm_compute. repeat constructor; intros H'%list_elem_of_In; simpl in H';
    intuition discriminate.
Defined.

(** X18.  Whatever the names are, every function gives one row for each
    distinct name: items of the same name share one row. *)
Theorem one_row_per_name (module : tfconfig.Module_) (baseUrl modulePath : string) :
  length (GetVarsData module baseUrl modulePath) =
    length (remove_dups (tfconfig.Var.Name <$> tfconfig.Variables module))
  ∧ length (GetOutputsData module baseUrl modulePath) =
    length (remove_dups (tfconfig.Output.Name <$> tfconfig.Outputs module))
  ∧ length (GetManagedResourcesData module baseUrl modulePath) =
    length (remove_dups (tfconfig.Resource.Name <$> tfconfig.ManagedResources module))
  ∧ length (GetDataSourcesData module baseUrl modulePath) =
    length (remove_dups (tfconfig.Resource.Name <$> tfconfig.DataResources module))
  ∧ length (GetModulesData module baseUrl modulePath) =
    length (remove_dups (tfconfig.ModuleCall.Name <$> tfconfig.ModuleCalls module)).
Proof.
  split; [|split; [|split; [|split]]]; apply sortedRows_collect_length.
Qed.

(** X19.  The version of a module call is read and never written: two
    modules whose calls differ in their versions only have the same table of
    modules. *)
Theorem GetModulesTable_version (module module' : tfconfig.Module_)
    (baseUrl modulePath : string) :
  Forall2 (λ c c', tfconfig.ModuleCall.Name c = tfconfig.ModuleCall.Name c'
                   ∧ tfconfig.ModuleCall.Source c = tfconfig.ModuleCall.Source c'
                   ∧ tfconfig.ModuleCall.Pos c = tfconfig.ModuleCall.Pos c')
    (tfconfig.ModuleCalls module) (tfconfig.ModuleCalls module') →
  GetModulesTable module baseUrl modulePath = GetModulesTable module' baseUrl modulePath.
Proof.
  intros H. unfold GetModulesTable, GetModulesData. f_equal.
  apply sortedRows_ext. eapply Forall2_impl; [done|].
  intros c c' (Hn & Hs & Hp). split; [done|]. simpl. by rewrite Hn, Hs, Hp.
Qed.

Lemma GetModulesTable_version_witness :
  GetModulesTable
    (tfconfig.mkModule [] [] [] []
       [tfconfig.ModuleCall.mk "vpc" "./vpc" "1.0" (tfconfig.mkSourcePos "main.tf" 3)])
    "u" "m" =
  GetModulesTable
    (tfconfig.mkModule [] [] [] []
       [tfconfig.ModuleCall.mk "vpc" "./vpc" "2.5" (tfconfig.mkSourcePos "main.tf" 3)])
    "u" "m".
Proof. apply GetModulesTable_version. by repeat constructor. Defined.

(** ** The code position *)

Lemma Split_nonempty (s : string) (sep : ascii) : Split s sep ≠ [].
Proof.
  destruct s as [|c r]; [done|]. simpl.
  destruct (Ascii.eqb c sep); [done|]. by destruct (Split r sep).
Qed.

Lemma Split_no_sep (s : string) (sep : ascii) :
  anyByte (λ c, Ascii.eqb c sep) s = false → Split s sep = [s].
Proof.
  induction s as [|c s IH]; [done|]. simpl.
  intros [Hc Hs]%orb_false_elim. by rewrite Hc, IH.
Qed.

Lemma Split_append (a b : string) (sep : ascii) :
  ∃ p pre, Split (a +:+ String sep b) sep = (p :: pre ++ Split b sep)%list.
Proof.
  induction a as [|c a (p & pre & IH)].
  - exists EmptyString, []. rewrite append_nil_l. simpl. by rewrite Ascii.eqb_refl.
  - rewrite append_cons.
    change (Split (String c ?x) sep) with
      (if Ascii.eqb c sep then EmptyString :: Split x sep
       else match Split x sep with
            | [] => [String c EmptyString]
            | y :: ys => String c y :: ys
            end).
    rewrite IH. destruct (Ascii.eqb c sep).
    + by exists EmptyString, (p :: pre).
    + by exists (String c p), pre.
Qed.

Lemma last_Split_append (a b : string) (sep : ascii) :
  List.last (Split (a +:+ String sep b) sep) EmptyString =
  List.last (Split b sep) EmptyString.
Proof.
  destruct (Split_append a b sep) as (p & pre & ->).
  pose proof (Split_nonempty b sep) as Hne.
  change (p :: pre ++ Split b sep)%list with ((p :: pre) ++ Split b sep)%list.
  generalize (p :: pre). intros l. induction l as [|x l IH]; [done|].
  simpl. destruct (l ++ Split b sep)%list eqn:E; [|done].
  apply app_eq_nil in E as [_ E]. done.
Qed.

(** The segments of a path put together again with the separator are the
    path. *)
Lemma Join_Split (s : string) (sep : ascii) :
  Join (Split s sep) (String sep EmptyString) = s.
Proof.
  unfold Join. induction s as [|c s IH]; [done|]. simpl.
  pose proof (Split_nonempty s sep) as Hne.
  destruct (Ascii.eqb_spec c sep) as [->|Hc].
  - destruct (Split s sep) as [|y ys]; [done|]. simpl in *. by rewrite IH.
  - destruct (Split s sep) as [|y ys]; [done|]. rewrite <- IH.
    destruct ys; reflexivity.
Qed.

(** X20.  The code position shows the file without its directories: for a
    file name [file] without a slash, under any directory, the cell is the
    link [[file: line](baseUrl/modulePath/file#Lline)], the same as for the
    bare file name. *)
Theorem codePosition_basename (dir file : string) (line : Z)
    (baseUrl modulePath : string) :
  anyByte (λ c, Ascii.eqb c "/"%char) file = false →
  codePosition (tfconfig.mkSourcePos (dir +:+ "/" +:+ file) line) baseUrl modulePath =
    "[" +:+ file +:+ ": " +:+ formatInt line +:+ "](" +:+ baseUrl +:+ "/" +:+
    modulePath +:+ "/" +:+ file +:+ "#L" +:+ formatInt line +:+ ")"
  ∧ codePosition (tfconfig.mkSourcePos file line) baseUrl modulePath =
    codePosition (tfconfig.mkSourcePos (dir +:+ "/" +:+ file) line) baseUrl modulePath.
Proof.
  intros Hfile. unfold codePosition. cbn [tfconfig.Filename tfconfig.Line].
  change (dir +:+ "/" +:+ file) with (dir +:+ String "/"%char file).
  rewrite (last_Split_append dir file "/"%char).
  rewrite (Split_no_sep file "/"%char Hfile). by split.
Qed.

Lemma codePosition_basename_witness :
  codePosition (tfconfig.mkSourcePos ("/src/modules/net" +:+ "/" +:+ "main.tf") 42)
    "https://git.example/repo" "modules/net" =
  "[main.tf: 42](https://git.example/repo/modules/net/main.tf#L42)".
Proof.
  apply (codePosition_basename "/src/modules/net" "main.tf" 42). reflexivity.
Defined.

(** ** The command line and the dispatch of [main] *)

(** X21.  [StringInSlice] tells whether the string is an element of the
    slice. *)
Theorem StringInSlice_spec (a : string) (list : list string) :
  StringInSlice a list = true ↔ a ∈ list.
Proof.
  induction list as [|b list IH]; simpl.
  - split; [done|]. by intros ?%elem_of_nil.
  - rewrite elem_of_cons. destruct (String.eqb_spec b a) as [->|Hne].
    + split; auto.
    + rewrite IH. split; [auto|]. intros [->|H]; done.
Qed.

Lemma StringInSlice_spec_witness :
  StringInSlice "RenderTemplate" ValidActions = true
  ∧ StringInSlice "ModulesTable" ValidActions = false.
Proof.
  split.
  - apply (StringInSlice_spec "RenderTemplate" ValidActions).
    apply list_elem_of_In. simpl. tauto.
  - destruct (StringInSlice "ModulesTable" ValidActions) eqn:E; [|done].
    apply (StringInSlice_spec "ModulesTable" ValidActions) in E.
    apply list_elem_of_In in E. simpl in E. intuition discriminate.
Defined.

Lemma ValidActions_cases (a : string) :
  a ∈ ValidActions ↔
  a = "VarsTable" ∨ a = "OutputsTable" ∨ a = "ManagedResourcesTable"
  ∨ a = "DataSourcesTable" ∨ a = "RenderTemplate".
Proof.
  unfold ValidActions. rewrite !elem_of_cons, elem_of_nil. tauto.
Qed.

Lemma ParseCli_Returns (date : nat → string) (opts opts' : CliOpts) :
  ParseCli date opts = Returns opts' ↔
  opts' = opts
  ∧ TfPath opts ≠ EmptyString
  ∧ Action opts ∈ ValidActions
  ∧ (Action opts = "RenderTemplate" → TemplatePath opts ≠ EmptyString).
Proof.
  unfold ParseCli.
  destruct (String.eqb_spec (TfPath opts) EmptyString) as [Hp|Hp].
  { split; [done|]. by intros (_ & ? & _). }
  destruct (String.eqb_spec (Action opts) EmptyString) as [Ha|Ha].
  { split; [done|]. intros (_ & _ & Hin & _). rewrite Ha in Hin.
    apply ValidActions_cases in Hin.
    destruct Hin as [H|[H|[H|[H|H]]]]; discriminate H. }
  destruct (StringInSlice (Action opts) ValidActions) eqn:Hin; simpl.
  - apply StringInSlice_spec in Hin.
    destruct (String.eqb_spec (Action opts) "RenderTemplate") as [Hr|Hr]; simpl.
    + destruct (String.eqb_spec (TemplatePath opts) EmptyString) as [Ht|Ht].
      * split; [done|]. intros (_ & _ & _ & H). by destruct (H Hr).
      * split; [by intros [= <-]|]. by intros (-> & _).
    + split; [by intros [= <-]|]. by intros (-> & _).
  - split; [done|]. intros (_ & _ & H & _).
    apply StringInSlice_spec in H. congruence.
Qed.

(** X22.  [ParseCli] returns the options it was given, and this exactly
    when the path is not empty, the action is one of [ValidActions], and the
    action [RenderTemplate] comes with a template path; an empty path makes
    it panic whatever the other flags are. *)
Theorem ParseCli_spec (date : nat → string) (opts : CliOpts) :
  (∀ opts', ParseCli date opts = Returns opts' ↔
     opts' = opts
     ∧ TfPath opts ≠ EmptyString
     ∧ Action opts ∈ ValidActions
     ∧ (Action opts = "RenderTemplate" → TemplatePath opts ≠ EmptyString))
  ∧ (TfPath opts = EmptyString → ParseCli date opts = Panics "no TF Path set").
Proof.
  split; [intros opts'; apply ParseCli_Returns|].
  intros H. unfold ParseCli. by rewrite H.
Qed.

Lemma ParseCli_spec_witness :
  ParseCli (λ _, "2019/07/01")
    (mkCliOpts EmptyString "VarsTable" EmptyString EmptyString EmptyString) =
  Panics "no TF Path set".
Proof.
  apply (ParseCli_spec (λ _, "2019/07/01")
           (mkCliOpts EmptyString "VarsTable" EmptyString EmptyString EmptyString)).
  reflexivity.
Defined.

Lemma CheckErr_msg (date : nat → string) (e msg : string) :
  msg ≠ EmptyString →
  CheckErr date (Some e) msg = Some [logLine (date 0%nat) msg; logLine (date 1%nat) e].
Proof.
  intros H. unfold CheckErr. by destruct (String.eqb_spec msg EmptyString).
Qed.

Lemma mainAction_RenderTemplate (toLower : string → string) (date : nat → string)
    (cliOpts : CliOpts) (module : tfconfig.Module_) (world : outside) :
  diags world = None →
  Action cliOpts = "RenderTemplate" →
  mainAction toLower date cliOpts module world =
  match parseFiles world, readFile world with
  | Some err, _ =>
      Leaves EmptyString
        [logLine (date 0%nat) ("Problem loading template: " +:+ TemplatePath cliOpts);
         logLine (date 1%nat) err]
  | None, (_, Some err) =>
      Leaves EmptyString
        [logLine (date 0%nat) "Failed to read template: %s"; logLine (date 1%nat) err]
  | None, (readmeTemplateBytes, None) =>
      match execute world (templateData toLower cliOpts module readmeTemplateBytes) with
      | (output, Some err) =>
          Leaves output
            [logLine (date 0%nat)
               ("failed rendering template: " +:+ TemplatePath cliOpts);
             logLine (date 1%nat) err]
      | (output, None) => Prints output
      end
  end.
Proof.
  intros Hd Ha. unfold mainAction. rewrite Hd, Ha.
  change (String.eqb "RenderTemplate" "VarsTable") with false.
  change (String.eqb "RenderTemplate" "OutputsTable") with false.
  change (String.eqb "RenderTemplate" "ManagedResourcesTable") with false.
  change (String.eqb "RenderTemplate" "RenderTemplate") with true.
  cbv iota.
  destruct (parseFiles world) as [err|].
  { by rewrite CheckErr_msg. }
  cbn [CheckErr]. destruct (readFile world) as [readmeTemplateBytes [err|]].
  { by rewrite CheckErr_msg. }
  cbn [CheckErr].
  destruct (execute world _) as [output [err|]].
  - by rewrite CheckErr_msg.
  - reflexivity.
Qed.

(** X23.  What [main] does once [ParseCli] has returned the options.  When
    the module was loaded with errors it panics, whatever the action is.
    Otherwise the action is one of the five of [ValidActions] and [main]
    serves four of them: it leaves through [CheckErr] with the one line that
    the action is not implemented exactly when the action is
    [DataSourcesTable]; it prints a table followed by a newline for the
    three other table actions; and for [RenderTemplate] it leaves through
    [CheckErr] with two lines, what went wrong with which template and the
    error, when the template cannot be parsed, cannot be read or cannot be
    executed, in the last case after what [Execute] has written, and
    otherwise it prints what [Execute] writes for the template data. *)
Theorem mainAction_accepted (toLower : string → string) (date : nat → string)
    (flags cliOpts : CliOpts) (module : tfconfig.Module_) (world : outside) :
  ParseCli date flags = Returns cliOpts →
  (∀ e, diags world = Some e →
     mainAction toLower date cliOpts module world =
       Panicked ("Problem Loading Module: " +:+ e))
  ∧ (diags world = None →
     ((∃ output line,
         mainAction toLower date cliOpts module world = Leaves output [line])
      ↔ Action cliOpts = "DataSourcesTable")
     ∧ (Action cliOpts = "DataSourcesTable" →
        mainAction toLower date cliOpts module world =
          Leaves EmptyString
            [logLine (date 0%nat) "Action DataSourcesTable not implented yet"])
     ∧ (Action cliOpts = "VarsTable" →
        mainAction toLower date cliOpts module world =
          Prints (GetVarsTable module (RepoUrl cliOpts) (ModulePath cliOpts)
                  +:+ newline))
     ∧ (Action cliOpts = "OutputsTable" →
        mainAction toLower date cliOpts module world =
          Prints (GetOutputsTable module (RepoUrl cliOpts) (ModulePath cliOpts)
                  +:+ newline))
     ∧ (Action cliOpts = "ManagedResourcesTable" →
        mainAction toLower date cliOpts module world =
          Prints (GetManagedResourcesTable module (RepoUrl cliOpts)
                    (ModulePath cliOpts) +:+ newline))
     ∧ (Action cliOpts = "RenderTemplate" →
        (∀ err, parseFiles world = Some err →
           mainAction toLower date cliOpts module world =
             Leaves EmptyString
               [logLine (date 0%nat)
                  ("Problem loading template: " +:+ TemplatePath cliOpts);
                logLine (date 1%nat) err])
        ∧ (parseFiles world = None →
           ∀ readmeTemplateBytes,
             (∀ err, readFile world = (readmeTemplateBytes, Some err) →
                mainAction toLower date cliOpts module world =
                  Leaves EmptyString
                    [logLine (date 0%nat) "Failed to read template: %s";
                     logLine (date 1%nat) err])
             ∧ (readFile world = (readmeTemplateBytes, None) →
                ∀ output,
                  (∀ err,
                     execute world
                       (templateData toLower cliOpts module readmeTemplateBytes) =
                       (output, Some err) →
                     mainAction toLower date cliOpts module world =
                       Leaves output
                         [logLine (date 0%nat)
                            ("failed rendering template: " +:+ TemplatePath cliOpts);
                          logLine (date 1%nat) err])
                  ∧ (execute world
                       (templateData toLower cliOpts module readmeTemplateBytes) =
                       (output, None) →
                     mainAction toLower date cliOpts module world = Prints output))))
     ∧ Action cliOpts ∈ ValidActions).
Proof.
  intros (-> & _ & Hin & _)%ParseCli_Returns.
  split.
  { intros e He. unfold mainAction. by rewrite He. }
  intros Hd.
  assert (Action flags = "VarsTable" →
          mainAction toLower date flags module world =
          Prints (GetVarsTable module (RepoUrl flags) (ModulePath flags) +:+ newline))
    as Hvars.
  { intros H. unfold mainAction. rewrite Hd, H. reflexivity. }
  assert (Action flags = "OutputsTable" →
          mainAction toLower date flags module world =
          Prints (GetOutputsTable module (RepoUrl flags) (ModulePath flags)
                  +:+ newline)) as Houts.
  { intros H. unfold mainAction. rewrite Hd, H. reflexivity. }
  assert (Action flags = "ManagedResourcesTable" →
          mainAction toLower date flags module world =
          Prints (GetManagedResourcesTable module (RepoUrl flags) (ModulePath flags)
                  +:+ newline)) as Hres.
  { intros H. unfold mainAction. rewrite Hd, H. reflexivity. }
  assert (Action flags = "DataSourcesTable" →
          mainAction toLower date flags module world =
          Leaves EmptyString
            [logLine (date 0%nat) "Action DataSourcesTable not implented yet"])
    as Hdata.
  { intros H. unfold mainAction. rewrite Hd, H. reflexivity. }
  pose proof (mainAction_RenderTemplate toLower date flags module world Hd) as Hrender.
  split; [|split; [done|split; [done|split; [done|split; [done|split; [|done]]]]]].
  - split; [|intros H; rewrite (Hdata H); eauto].
    intros (output & line & E).
    apply ValidActions_cases in Hin.
    destruct Hin as [H|[H|[H|[H|H]]]]; [| | |done|].
    + rewrite (Hvars H) in E. discriminate E.
    + rewrite (Houts H) in E. discriminate E.
    + rewrite (Hres H) in E. discriminate E.
    + rewrite (Hrender H) in E.
      destruct (parseFiles world); [discriminate E|].
      destruct (readFile world) as [bytes [err|]]; [discriminate E|].
      destruct (execute world _) as [out [err|]]; discriminate E.
  - intros H. specialize (Hrender H). split.
    { intros err He. by rewrite Hrender, He. }
    intros Hp bytes. split.
    { intros err Hr. by rewrite Hrender, Hp, Hr. }
    intros Hr output. split.
    + intros err He. by rewrite Hrender, Hp, Hr, He.
    + intros He. by rewrite Hrender, Hp, Hr, He.
Qed.

Lemma mainAction_accepted_witness :
  mainAction noUnicode (λ _, "2019/07/01")
    (mkCliOpts "./module" "DataSourcesTable" EmptyString "u" "m")
    (exampleModule ["alpha"])
    (mkOutside None None (EmptyString, None) (λ _, (EmptyString, None))) =
  Leaves EmptyString ["2019/07/01 Action DataSourcesTable not implented yet"].
Proof.
  destruct (mainAction_accepted noUnicode (λ _, "2019/07/01")
              (mkCliOpts "./module" "DataSourcesTable" EmptyString "u" "m")
              (mkCliOpts "./module" "DataSourcesTable" EmptyString "u" "m")
              (exampleModule ["alpha"])
              (mkOutside None None (EmptyString, None) (λ _, (EmptyString, None)))
              eq_refl) as (_ & H).
  destruct (H eq_refl) as (_ & Hdata & _).
  exact (Hdata eq_refl).
Defined.

Lemma Join_banner (entries : list string) :
  ∃ rest,
    Join ("Table of Contents" :: "=================" :: entries) newline =
    "Table of Contents" +:+ newline +:+ "=================" +:+ rest.
Proof.
  unfold Join. destruct entries as [|e entries].
  - by exists EmptyString.
  - by eexists.
Qed.

(** X24.  The table of contents [main] gives to the template is built with
    the maximal depth 3 and nothing skipped, and the error of the scan is
    dropped: when the scan of the template fails the table of contents is the
    empty text and nothing tells; when it does not, the text is the lines of
    [BuildMarkdownToc] with a newline between two of them, and begins with
    the banner. *)
Theorem templateData_toc (toLower : string → string) (cliOpts : CliOpts)
    (module : tfconfig.Module_) (readmeTemplateBytes : string) :
  MarkdownTOC (templateData toLower cliOpts module readmeTemplateBytes) =
    Join (BuildMarkdownToc toLower readmeTemplateBytes 3 0).1 newline
  ∧ match (Scanner readmeTemplateBytes).2 with
    | Some _ =>
        MarkdownTOC (templateData toLower cliOpts module readmeTemplateBytes) =
        EmptyString
    | None =>
        ∃ rest,
          MarkdownTOC (templateData toLower cliOpts module readmeTemplateBytes) =
          "Table of Contents" +:+ newline +:+ "=================" +:+ rest
    end.
Proof.
  unfold templateData.
  destruct (Scanner readmeTemplateBytes) as [lines [e|]] eqn:Hd.
  - rewrite (BuildMarkdownToc_err toLower _ 3 0 lines e Hd). by split.
  - rewrite (BuildMarkdownToc_ok toLower _ 3 0 lines Hd).
    cbn [MarkdownTOC fst snd]. split; [done|].
    destruct (appendAll_emits toLower (headingCalls 3 EmptyString lines) (initState 0))
      as (entries & _ & -> & _); [done|].
    apply Join_banner.
Qed.

(** ** The text lines of the five tables *)

Lemma table_lines (headings lengths : list string) (data : list (list string)) :
  Forall noNewline headings → Forall noNewline lengths →
  length (textLines (MarkdownTable headings lengths data)) = (length data + 2)%nat.
Proof.
  intros Hh Hl. rewrite MarkdownTable_textLines by done.
  simpl. rewrite length_map. lia.
Qed.

(** X25.  Each of the five tables is two text lines and one text line for
    each distinct name, whatever the fields of the items hold: a newline in a
    description does not break its row. *)
Theorem table_line_per_name (module : tfconfig.Module_) (baseUrl modulePath : string) :
  length (textLines (GetVarsTable module baseUrl modulePath)) =
    (length (remove_dups (tfconfig.Var.Name <$> tfconfig.Variables module)) + 2)%nat
  ∧ length (textLines (GetOutputsTable module baseUrl modulePath)) =
    (length (remove_dups (tfconfig.Output.Name <$> tfconfig.Outputs module)) + 2)%nat
  ∧ length (textLines (GetManagedResourcesTable module baseUrl modulePath)) =
    (length (remove_dups
               (tfconfig.Resource.Name <$> tfconfig.ManagedResources module)) + 2)%nat
  ∧ length (textLines (GetDataSourcesTable module baseUrl modulePath)) =
    (length (remove_dups
               (tfconfig.Resource.Name <$> tfconfig.DataResources module)) + 2)%nat
  ∧ length (textLines (GetModulesTable module baseUrl modulePath)) =
    (length (remove_dups
               (tfconfig.ModuleCall.Name <$> tfconfig.ModuleCalls module)) + 2)%nat.
Proof.
  unfold GetVarsTable, GetOutputsTable, GetManagedResourcesTable,
    GetDataSourcesTable, GetModulesTable.
  split; [|split; [|split; [|split]]];
    (rewrite table_lines; [|by repeat constructor..]);
    f_equal; apply sortedRows_collect_length.
Qed.
